(** * Watercan: cmake/embed_bin.py

    A shallow embedding of the build-time helper [cmake/embed_bin.py], which
    turns a binary file into a C++ source file declaring a byte array and its
    length, together with proofs of the properties its specification states.

    Python values are modelled as follows.
    - [int] is [Z]; [str(n)] and [%d] are the decimal rendering of the
      Standard Library ([DecimalString.NilZero]).
    - [bytes] is [list byte]; iterating it yields the integers [0..255].
    - [str] is [string], a sequence of 8-bit characters: a text is identified
      with its encoding, so that writing a [str] to a file opened in text mode
      stores [String.list_byte_of_string] of it (POSIX newlines).
    - The file system is a finite map from paths to files, the process owns a
      list of open handles and an error stream.  Every primitive effect turns
      the current world into a new one and records the old one, so that the
      states the program runs through can be inspected.
    - Opening a file may fail; reading and writing an open file do not (no
      device errors, no full disk, no text that cannot be encoded).
    - The content a world gives to a file that is open for writing is what
      the script has handed to its file object so far.  A text file object
      is buffered: the disk holds a prefix of that content and the rest waits
      in the buffer until it is flushed, at the latest by [close].  Where a
      property depends on what is on the disk during the writes, the lag is
      modelled explicitly ([buffered]), with the capacity of the buffer as
      its only assumption. *)

From Stdlib Require Import ZArith NArith Ascii Strings.Byte Decimal DecimalString DecimalN.
From Stdlib Require String.
From stdpp Require Import gmap strings list.

(** ** Text *)

Definition nl : string := String "010"%char "".

(** [str(n)] for a Python integer. *)
Definition str (n : Z) : string := NilZero.string_of_int (Z.to_int n).

(** [len(data)] as a Python integer. *)
Definition len {A} (l : list A) : Z := Z.of_nat (length l).

(** The integer a byte of a [bytes] object iterates as. *)
Definition byte_int (b : byte) : Z := Z.of_N (Byte.to_N b).

(** Encoding of a text written to a file opened in text mode. *)
Definition encode (s : string) : list byte := String.list_byte_of_string s.
Definition decode (l : list byte) : string := String.string_of_list_byte l.

(** ** The world the script runs in *)

Record file := File {
  f_bytes : list byte;   (* content *)
  f_rd : bool;           (* may be opened for reading *)
  f_wr : bool            (* may be opened for writing *)
}.

Inductive mode := RB | W.

#[global] Instance mode_eq_dec : EqDecision mode.
Proof. solve_decision. Defined.

(** A file object: the path it was opened on and the mode. *)
Definition handle : Type := string * mode.

Record World := mkWorld {
  w_fs : gmap string file;      (* the files that exist *)
  w_creat : gset string;        (* paths at which a file may be created *)
  w_open : list handle;         (* handles the process holds open *)
  w_err : string                (* what was printed to sys.stderr *)
}.

(** The current world and the worlds left behind, most recent first. *)
Record Sys := mkSys { now : World; past : list World }.

Inductive exc :=
| SystemExit (code : Z)
| FileNotFoundError
| PermissionError
| IndexError
| ValueError.

Inductive result (A : Type) :=
| Ok (a : A)
| Raise (e : exc).
Arguments Ok {A} a.
Arguments Raise {A} e.

(** ** A state-and-exception monad over [Sys] *)

Definition M (A : Type) : Type := Sys → result A * Sys.

#[global] Instance M_ret : MRet M := λ A a st, (Ok a, st).
#[global] Instance M_bind : MBind M := λ A B k m st,
  match m st with
  | (Ok a, st1) => k a st1
  | (Raise e, st1) => (Raise e, st1)
  end.

Definition raise {A} (e : exc) : M A := λ st, (Raise e, st).

(** A primitive effect: the world changes, the old world is recorded. *)
Definition effect (f : World → World) : M unit := λ st,
  (Ok tt, mkSys (f (now st)) (now st :: past st)).

Definition get_world : M World := λ st, (Ok (now st), st).

Definition when (c : bool) (m : M unit) : M unit :=
  if c then m else mret tt.

(** ** Primitives of the Python run time *)

(** [print(s, file=sys.stderr)] *)
Definition print_stderr (s : string) : M unit :=
  effect (λ w, mkWorld (w_fs w) (w_creat w) (w_open w) (w_err w +:+ s +:+ nl)).

(** [sys.exit(code)] *)
Definition sys_exit {A} (code : Z) : M A := raise (SystemExit code).

(** [sys.argv[i]] *)
Definition sys_argv (argv : list string) (i : nat) : M string :=
  match argv !! i with
  | Some a => mret a
  | None => raise IndexError
  end.

Definition add_handle (h : handle) (w : World) : World :=
  mkWorld (w_fs w) (w_creat w) (h :: w_open w) (w_err w).

Fixpoint remove_handle (h : handle) (l : list handle) : list handle :=
  match l with
  | [] => []
  | h' :: l' => if decide (h = h') then l' else h' :: remove_handle h l'
  end.

(** Opening for writing truncates an existing file and creates a missing
    one. *)
Definition truncated (p : string) (fl : file) (w : World) : World :=
  mkWorld (<[p := File [] (f_rd fl) (f_wr fl)]> (w_fs w)) (w_creat w)
          ((p, W) :: w_open w) (w_err w).

(** [open(p, 'rb')] and [open(p, 'w')].  The paths of a world name regular
    files, so that the two ways an [open] fails here are a missing file and a
    refused permission; the other subclasses of [OSError] an [open] can
    raise are not told apart. *)
Definition open_ (p : string) (m : mode) : M handle :=
  w ← get_world;
  match m with
  | RB =>
      match w_fs w !! p with
      | Some fl =>
          if f_rd fl then effect (add_handle (p, RB));; mret (p, RB)
          else raise PermissionError
      | None => raise FileNotFoundError
      end
  | W =>
      match w_fs w !! p with
      | Some fl =>
          if f_wr fl then effect (truncated p fl);; mret (p, W)
          else raise PermissionError
      | None =>
          if decide (p ∈ w_creat w)
          then effect (truncated p (File [] true true));; mret (p, W)
          else raise FileNotFoundError
      end
  end.

(** [f.read()] on a file opened in binary mode: the whole content. *)
Definition f_read (f : handle) : M (list byte) :=
  w ← get_world;
  if decide (f ∈ w_open w ∧ f.2 = RB) then
    match w_fs w !! f.1 with
    | Some fl => mret (f_bytes fl)
    | None => raise ValueError
    end
  else raise ValueError.

(** The world after [s] was appended to the file at [p]. *)
Definition appended (p : string) (s : string) (w : World) : World :=
  mkWorld (alter (λ fl, File (f_bytes fl ++ encode s) (f_rd fl) (f_wr fl)) p (w_fs w))
          (w_creat w) (w_open w) (w_err w).

(** [f.write(s)] on a file opened in text mode: [s] is handed to the file
    object, behind what it was handed before. *)
Definition f_write (f : handle) (s : string) : M unit :=
  w ← get_world;
  if decide (f ∈ w_open w ∧ f.2 = W) then effect (appended f.1 s)
  else raise ValueError.

Definition f_close (f : handle) : M unit :=
  effect (λ w, mkWorld (w_fs w) (w_creat w) (remove_handle f (w_open w)) (w_err w)).

(** [with open(p, m) as f: body]: the handle is closed however the body
    ends. *)
Definition with_open {A} (p : string) (m : mode) (body : handle → M A) : M A :=
  λ st,
    match open_ p m st with
    | (Ok f, st1) =>
        let '(r, st2) := body f st1 in
        (r, (f_close f st2).2)
    | (Raise e, st1) => (Raise e, st1)
    end.

(** ** The script *)

Definition usage : string := "Usage: embed_bin.py <input> <varname> <output>".

(** [for i, b in enumerate(data): ...], with [n = len(data)] and [i] the
    index of the first element of [data]. *)
Fixpoint for_enumerate (f : handle) (n i : Z) (data : list byte) : M unit :=
  match data with
  | [] => mret tt
  | b :: rest =>
      when (i `mod` 12 =? 0)%Z (f_write f "    ");;
      f_write f (str (byte_int b));;
      when (negb (i =? n - 1)%Z) (f_write f ",");;
      when (negb (i `mod` 12 =? 11)%Z) (f_write f " ");;
      when (i `mod` 12 =? 11)%Z (f_write f nl);;
      for_enumerate f n (i + 1) rest
  end.

(** The body of the second [with] block: what is written to the file object
    [f], for the symbol [var_name] and the [data] read. *)
Definition emit (var_name : string) (data : list byte) (f : handle) : M unit :=
  f_write f ("#include <cstddef>" +:+ nl);;
  f_write f ("extern const unsigned char " +:+ var_name +:+ "[] = {" +:+ nl);;
  for_enumerate f (len data) 0 data;;
  f_write f (nl +:+ "};" +:+ nl);;
  let size_var := var_name +:+ "_len" in
  f_write f ("extern const std::size_t " +:+ size_var +:+ " = "
             +:+ str (len data) +:+ ";" +:+ nl).

Definition main (argv : list string) : M unit :=
  when (len argv <? 4)%Z
    (print_stderr usage;; sys_exit 2);;
  in_path ← sys_argv argv 1;
  var_name ← sys_argv argv 2;
  out_path ← sys_argv argv 3;
  data ← with_open in_path RB (λ f, f_read f);
  with_open out_path W (emit var_name data).

(** Running the script as a process started in world [w]. *)
Definition run (argv : list string) (w : World) : result unit * Sys :=
  main argv (mkSys w []).

(** The exit status the interpreter reports: 0 on normal termination, the
    argument of [sys.exit], 1 for an uncaught exception. *)
Definition exit_status (r : result unit) : Z :=
  match r with
  | Ok _ => 0
  | Raise (SystemExit c) => c
  | Raise _ => 1
  end.

(** ** Observations *)

Definition file_bytes (w : World) (p : string) : option (list byte) :=
  f_bytes <$> w_fs w !! p.

Definition file_text (w : World) (p : string) : option string :=
  decode <$> file_bytes w p.

(** The content [open(p, 'rb').read()] returns, when the open succeeds. *)
Definition read_bytes (w : World) (p : string) : option (list byte) :=
  match w_fs w !! p with
  | Some fl => if f_rd fl then Some (f_bytes fl) else None
  | None => None
  end.

(** Whether [open(p, 'w')] succeeds. *)
Definition can_write (w : World) (p : string) : bool :=
  match w_fs w !! p with
  | Some fl => f_wr fl
  | None => bool_decide (p ∈ w_creat w)
  end.

(** The world a run ends in, and the states it ran through. *)
Definition final (argv : list string) (w : World) : World :=
  now (run argv w).2.

Definition history (argv : list string) (w : World) : list World :=
  past (run argv w).2.

Definition status (argv : list string) (w : World) : Z :=
  exit_status (run argv w).1.

(** ** The disk during the write step

    What follows models the buffer of Python's text file objects. *)

(** The contents handed to the file object of [o] by a run, in the order of
    time: the content of [o] in every state in which the process holds [o]
    open for writing, from the state [open] leaves to the state before
    [close]. *)
Definition handed (argv : list string) (o : string) (w : World)
  : list (list byte) :=
  (λ w', default [] (file_bytes w' o))
    <$> filter (λ w', (o, W) ∈ w_open w') (reverse (history argv w)).

(** [disk k] is what the file holds on the disk at the [k]-th of these
    moments, for a file object whose buffer holds at most [cap] bytes: a
    prefix of what was handed over, short of it by no more than [cap]. *)
Definition buffered (cap : nat) (hs : list (list byte))
    (disk : nat → list byte) : Prop :=
  ∀ k h, hs !! k = Some h →
    disk k `prefix_of` h ∧ length h ≤ length (disk k) + cap.

(** The write step of a run is atomic for a buffer of [cap] bytes: the buffer
    can behave so that, at every moment of the write step, the disk holds
    either nothing, as [open] left it, or the whole of the final content. *)
Definition written_atomically (cap : nat) (argv : list string) (o : string)
    (w : World) : Prop :=
  ∃ disk, buffered cap (handed argv o w) disk
    ∧ ∀ k, k < length (handed argv o w) →
        disk k = [] ∨ Some (disk k) = file_bytes (final argv w) o.

(** ** The generated text in closed form

    What the [with] block of the script appends to the output file, as a pure
    function of the symbol name and the data.  [emit_writes] below proves
    that the script writes exactly this. *)

(** What the loop body writes for the byte [b] at index [i] of [n]. *)
Definition cell (n i : Z) (b : byte) : string :=
  (if (i `mod` 12 =? 0)%Z then "    " else "") +:+
  str (byte_int b) +:+
  (if negb (i =? n - 1)%Z then "," else "") +:+
  (if negb (i `mod` 12 =? 11)%Z then " " else "") +:+
  (if (i `mod` 12 =? 11)%Z then nl else "").

Fixpoint cells (n i : Z) (data : list byte) : string :=
  match data with
  | [] => ""
  | b :: rest => cell n i b +:+ cells n (i + 1) rest
  end.

(** Everything up to and including the opening brace of the initializer. *)
Definition array_head (var_name : string) : string :=
  "#include <cstddef>" +:+ nl +:+
  "extern const unsigned char " +:+ var_name +:+ "[] = {".

(** The line declaring the size constant. *)
Definition size_line (var_name : string) (n : Z) : string :=
  "extern const std::size_t " +:+ (var_name +:+ "_len") +:+ " = " +:+ str n
  +:+ ";" +:+ nl.

(** Everything the script writes before its last [f.write]. *)
Definition before_last (var_name : string) (data : list byte) : string :=
  array_head var_name +:+ nl +:+
  cells (len data) 0 data +:+
  nl +:+ "};" +:+ nl.

Definition output_text (var_name : string) (data : list byte) : string :=
  array_head var_name +:+ nl +:+
  cells (len data) 0 data +:+
  nl +:+ "};" +:+ nl +:+
  size_line var_name (len data).

(** ** Reading the generated file back

    A reader of the output format, written independently of the writer: it
    expects the preamble and the declaration of the array named [var_name],
    takes the text between the braces of its initializer, and collects the
    maximal runs of decimal digits in it, in textual order.  Behind the
    closing brace it expects the declaration of [var_name_len] and reads its
    value. *)

Definition digit_of (c : ascii) : option N :=
  let n := N_of_ascii c in
  if ((48 <=? n) && (n <=? 57))%N then Some (n - 48)%N else None.

(** The decimal literals of [s]; [cur] is the literal being read. *)
Fixpoint literals (cur : option N) (s : string) : list N :=
  match s with
  | EmptyString => option_list cur
  | String c rest =>
      match digit_of c with
      | Some d => literals (Some (10 * default 0 cur + d)%N) rest
      | None => option_list cur ++ literals None rest
      end
  end.

Fixpoint strip_prefix (p s : string) : option string :=
  match p with
  | EmptyString => Some s
  | String a p' =>
      match s with
      | String b s' => if Ascii.eqb a b then strip_prefix p' s' else None
      | EmptyString => None
      end
  end.

(** Splits [s] at the first occurrence of [c]: the text before it and the
    text behind it. *)
Fixpoint split_at (c : ascii) (s : string) : option (string * string) :=
  match s with
  | EmptyString => None
  | String a s' =>
      if Ascii.eqb a c then Some (EmptyString, s')
      else '(l, r) ← split_at c s'; Some (String a l, r)
  end.

Definition parse_output (var_name : string) (text : string)
  : option (list byte * N) :=
  rest ← strip_prefix ("#include <cstddef>" +:+ nl +:+
                        "extern const unsigned char " +:+ var_name +:+ "[] = {")
                       text;
  '(body, rest) ← split_at "}" rest;
  bytes ← mapM Byte.of_N (literals None body);
  rest ← strip_prefix (";" +:+ nl +:+ "extern const std::size_t "
                        +:+ (var_name +:+ "_len") +:+ " = ") rest;
  '(digits, rest) ← split_at ";" rest;
  match literals None digits with
  | [n] => if String.eqb rest nl then Some (bytes, n) else None
  | _ => None
  end.

(** The bytes of the array initializer. *)
Definition parse_array (var_name text : string) : option (list byte) :=
  fst <$> parse_output var_name text.

(** The declared value of the size constant. *)
Definition parse_len (var_name text : string) : option N :=
  snd <$> parse_output var_name text.

(** The value of the digits of [d] read after the value [acc]. *)
Fixpoint uint_val (d : uint) (acc : N) : N :=
  match d with
  | Nil => acc
  | D0 d => uint_val d (10 * acc)
  | D1 d => uint_val d (10 * acc + 1)
  | D2 d => uint_val d (10 * acc + 2)
  | D3 d => uint_val d (10 * acc + 3)
  | D4 d => uint_val d (10 * acc + 4)
  | D5 d => uint_val d (10 * acc + 5)
  | D6 d => uint_val d (10 * acc + 6)
  | D7 d => uint_val d (10 * acc + 7)
  | D8 d => uint_val d (10 * acc + 8)
  | D9 d => uint_val d (10 * acc + 9)
  end%N.

(** No character of [s] is a decimal digit. *)
Fixpoint no_digit (s : string) : bool :=
  match s with
  | EmptyString => true
  | String c s' =>
      match digit_of c with Some _ => false | None => no_digit s' end
  end.

(** Every character of [s] is a decimal digit. *)
Fixpoint all_digits (s : string) : bool :=
  match s with
  | EmptyString => true
  | String c s' =>
      match digit_of c with Some _ => all_digits s' | None => false end
  end.

(** The character [c] does not occur in [s]. *)
Fixpoint lacks (c : ascii) (s : string) : bool :=
  match s with
  | EmptyString => true
  | String a s' => negb (Ascii.eqb a c) && lacks c s'
  end.

(** ** Specifications of effects *)

(** The world in which the file at [p] holds the text [t] and nothing else
    changed; a file that did not exist gets the permissions of a new file. *)
Definition written (p : string) (t : string) (w : World) : World :=
  let fl := default (File [] true true) (w_fs w !! p) in
  mkWorld (<[p := File (encode t) (f_rd fl) (f_wr fl)]> (w_fs w))
          (w_creat w) (w_open w) (w_err w).

(** [st'] is [st] after the text [t] was appended to the file at [p], piece
    by piece: every world in between holds the old content followed by a
    prefix of [t]. *)
Definition wrote (p : string) (t : string) (st st' : Sys) : Prop :=
  now st' = appended p t (now st) ∧
  ∃ mid, past st' = mid ++ past st ∧
    Forall (λ w', ∃ t1 t2, t = t1 +:+ t2 ∧ w' = appended p t1 (now st)) mid.

(** The computation [m] succeeds on every state in which [f] is open for
    writing, and does nothing but append [t] to the file of [f]. *)
Definition writes (f : handle) (t : string) (m : M unit) : Prop :=
  ∀ st, f ∈ w_open (now st) → f.2 = W →
    ∃ st', m st = (Ok tt, st') ∧ wrote f.1 t st st'.

(** The computation [m] succeeds on every state in which [f] is open for
    writing, appends [t0] to the file of [f] piece by piece and then, by one
    last write, [tl]. *)
Definition ends_with_write (f : handle) (t0 tl : string) (m : M unit) : Prop :=
  ∀ st, f ∈ w_open (now st) → f.2 = W →
    ∃ st' mid, m st = (Ok tt, st')
      ∧ now st' = appended f.1 (t0 +:+ tl) (now st)
      ∧ past st' = appended f.1 t0 (now st) :: mid ++ past st
      ∧ Forall (λ w', ∃ t1 t2, t0 = t1 +:+ t2
                               ∧ w' = appended f.1 t1 (now st)) mid.

(** In [w'] the process holds [p] open for writing, beside the handles of
    [w], and has handed the text [t] to it. *)
Definition holding (p : string) (t : string) (w w' : World) : Prop :=
  w_open w' = (p, W) :: w_open w ∧ file_bytes w' p = Some (encode t).

(** ** Further readers of the output *)

(** The number of occurrences of [c] in [s]. *)
Fixpoint count_char (c : ascii) (s : string) : nat :=
  match s with
  | EmptyString => 0
  | String a s' => (if Ascii.eqb a c then 1 else 0) + count_char c s'
  end.

(** The lines of a text: the pieces between its newline characters. *)
Fixpoint lines (s : string) : list string :=
  match s with
  | EmptyString => [EmptyString]
  | String c s' =>
      if Ascii.eqb c "010" then EmptyString :: lines s'
      else match lines s' with
           | l :: ls => String c l :: ls
           | [] => [String c EmptyString]
           end
  end.

(** The text between the braces of the initializer of the array named
    [var_name]. *)
Definition initializer_text (var_name text : string) : option string :=
  rest ← strip_prefix ("#include <cstddef>" +:+ nl +:+
                        "extern const unsigned char " +:+ var_name +:+ "[] = {")
                       text;
  fst <$> split_at "}" rest.

(** A reader that does not know the name of the array: the decimal literals
    between the first opening brace of the text and the next closing one. *)
Definition parse_braces (text : string) : option (list byte) :=
  '(_, rest) ← split_at "{" text;
  '(body, _) ← split_at "}" rest;
  mapM Byte.of_N (literals None body).

(** Every character of [s] satisfies [P]. *)
Fixpoint only (P : ascii → bool) (s : string) : bool :=
  match s with
  | EmptyString => true
  | String c s' => P c && only P s'
  end.

(** The characters of an initializer: digits, comma, space, newline. *)
Definition init_char (c : ascii) : bool :=
  match digit_of c with
  | Some _ => true
  | None => Ascii.eqb c "," || Ascii.eqb c " " || Ascii.eqb c "010"
  end.

(** The handles a run of the script on [i] and [o] may hold open in a world,
    beside the ones [w] came with. *)
Definition handles_ok (i o : string) (w w' : World) : Prop :=
  w_open w' = w_open w
  ∨ w_open w' = (i, RB) :: w_open w
  ∨ w_open w' = (o, W) :: w_open w.

(** ** Sample worlds *)

Definition demo_world : World :=
  mkWorld {[ "in.bin" := File [x00; x01; xff] true true ]} {[ "out.cpp" ]} [] "".

Definition bytes_0_13 : list byte :=
  [x00; x01; x02; x03; x04; x05; x06; x07; x08; x09; x0a; x0b; x0c; x0d].

Definition world_0_13 : World :=
  mkWorld {[ "blob" := File bytes_0_13 true false;
             "foo.cpp" := File [x2f; x2f] false true ]} ∅ [] "".

Definition empty_world : World :=
  mkWorld {[ "empty" := File [] true true ]} {[ "e.cpp" ]} [] "".

Definition two_files_world : World :=
  mkWorld {[ "a.bin" := File [x01; x02] true true;
             "b.bin" := File [xff] true true;
             "ro.cpp" := File [x2f] true false ]}
          {[ "a.cpp"; "b.cpp" ]} [] "".

(** An input of 16 MiB, and a world that holds it. *)
Definition big_input : list byte := replicate (Z.to_nat 16777216) x00.

Definition big_world : World :=
  mkWorld {[ "big.bin" := File big_input true true ]} {[ "big.cpp" ]} [] "".

(** * Proofs *)

(** ** Strings *)

Section strings.
Implicit Types s t u : string.

Lemma sapp_nil_l s : "" +:+ s = s.
Proof. reflexivity. Qed.

Lemma sapp_cons a s t : String a s +:+ t = String a (s +:+ t).
Proof. reflexivity. Qed.

Lemma sapp_nil_r s : s +:+ "" = s.
Proof. induction s as [|a s IH]; [done|]. by rewrite sapp_cons, IH. Qed.

Lemma sapp_assoc s t u : (s +:+ t) +:+ u = s +:+ t +:+ u.
Proof. induction s as [|a s IH]; [done|]. by rewrite !sapp_cons, IH. Qed.

Lemma encode_app s t : encode (s +:+ t) = encode s ++ encode t.
Proof.
  unfold encode, String.list_byte_of_string.
  induction s as [|a s IH]; [done|].
  rewrite sapp_cons. simpl. by rewrite IH.
Qed.

Lemma decode_encode s : decode (encode s) = s.
Proof. apply String.string_of_list_byte_of_string. Qed.

End strings.

(** ** Effects *)

Lemma bind_ok {A B} (m : M A) (k : A → M B) st a st1 :
  m st = (Ok a, st1) → (m ≫= k) st = k a st1.
Proof. intros H. unfold mbind, M_bind. by rewrite H. Qed.

Lemma appended_nil p w : appended p "" w = w.
Proof.
  destruct w as [fs cr op er]. unfold appended. simpl. f_equal.
  apply alter_id. intros [bs r wr] _. simpl. by rewrite (right_id [] (++)).
Qed.

Lemma appended_app p s t w :
  appended p t (appended p s w) = appended p (s +:+ t) w.
Proof.
  unfold appended. simpl. f_equal. rewrite alter_alter_eq.
  apply alter_ext. intros [bs r wr] _. simpl.
  by rewrite encode_app, (assoc (++)).
Qed.

Lemma f_write_ok f s st :
  f ∈ w_open (now st) → f.2 = W →
  f_write f s st = (Ok tt, mkSys (appended f.1 s (now st)) (now st :: past st)).
Proof.
  intros Hin Hm. unfold f_write, mbind, M_bind, get_world.
  by rewrite decide_True.
Qed.

Lemma wrote_refl p st : wrote p "" st st.
Proof.
  split; [by rewrite appended_nil|]. exists []. by split.
Qed.

Lemma wrote_trans p s t st0 st1 st2 :
  wrote p s st0 st1 → wrote p t st1 st2 → wrote p (s +:+ t) st0 st2.
Proof.
  intros [Hn1 (mid1 & Hp1 & Hm1)] [Hn2 (mid2 & Hp2 & Hm2)]. split.
  - by rewrite Hn2, Hn1, appended_app.
  - exists (mid2 ++ mid1). split.
    + by rewrite Hp2, Hp1, (assoc (++)).
    + apply Forall_app. split.
      * eapply Forall_impl; [exact Hm2|]. intros w' (t1 & t2 & -> & ->).
        exists (s +:+ t1), t2. split; [by rewrite sapp_assoc|].
        by rewrite Hn1, appended_app.
      * eapply Forall_impl; [exact Hm1|]. intros w' (t1 & t2 & -> & ->).
        exists t1, (t2 +:+ t). split; [by rewrite sapp_assoc|done].
Qed.

Lemma wrote_open p t st st' :
  wrote p t st st' → w_open (now st') = w_open (now st).
Proof. intros [-> _]. reflexivity. Qed.

Create HintDb writes.

Section writing.
Variable f : handle.

Lemma writes_ret : writes f "" (mret tt).
Proof. intros st _ _. exists st. split; [done|]. apply wrote_refl. Qed.

Lemma writes_write s : writes f s (f_write f s).
Proof.
  intros st Hin Hm. eexists. split; [by apply f_write_ok|].
  split; [done|]. exists [now st]. split; [done|].
  apply Forall_singleton. exists "", s. split; [done|].
  by rewrite appended_nil.
Qed.

Lemma writes_seq s t (m1 m2 : M unit) :
  writes f s m1 → writes f t m2 → writes f (s +:+ t) (m1;; m2).
Proof.
  intros H1 H2 st Hin Hm.
  destruct (H1 st Hin Hm) as (st1 & E1 & W1).
  destruct (H2 st1) as (st2 & E2 & W2); [|done|].
  { by rewrite (wrote_open _ _ _ _ W1). }
  exists st2. split; [|by eapply wrote_trans].
  by rewrite (bind_ok _ _ _ _ _ E1).
Qed.

Lemma writes_when (c : bool) s m :
  writes f s m → writes f (if c then s else "") (when c m).
Proof. intros H. destruct c; [done|]. apply writes_ret. Qed.

Hint Resolve writes_ret writes_write writes_when : writes.

Lemma for_enumerate_writes n data :
  ∀ i, writes f (cells n i data) (for_enumerate f n i data).
Proof.
  induction data as [|b rest IH]; intros i; simpl.
  - auto with writes.
  - unfold cell. rewrite !sapp_assoc.
    repeat (apply writes_seq; [auto with writes|]).
    apply IH.
Qed.

Lemma emit_writes var_name data :
  writes f (output_text var_name data) (emit var_name data f).
Proof.
  unfold emit, output_text, array_head, size_line.
  replace (("#include <cstddef>" +:+ nl +:+ "extern const unsigned char "
            +:+ var_name +:+ "[] = {") +:+ nl +:+ cells (len data) 0 data
           +:+ nl +:+ "};" +:+ nl +:+ "extern const std::size_t "
           +:+ (var_name +:+ "_len") +:+ " = " +:+ str (len data) +:+ ";" +:+ nl)
    with (("#include <cstddef>" +:+ nl) +:+
          ("extern const unsigned char " +:+ var_name +:+ "[] = {" +:+ nl) +:+
          cells (len data) 0 data +:+ (nl +:+ "};" +:+ nl) +:+
          ("extern const std::size_t " +:+ (var_name +:+ "_len") +:+ " = "
           +:+ str (len data) +:+ ";" +:+ nl))
    by (by rewrite !sapp_assoc).
  repeat (apply writes_seq; [auto using for_enumerate_writes with writes|]).
  auto with writes.
Qed.

End writing.

(** ** The two [with] blocks *)

Lemma world_eta w : mkWorld (w_fs w) (w_creat w) (w_open w) (w_err w) = w.
Proof. by destruct w. Qed.

Lemma with_open_read p w ps data :
  read_bytes w p = Some data →
  with_open p RB (λ f, f_read f) (mkSys w ps)
  = (Ok data, mkSys w (add_handle (p, RB) w :: w :: ps)).
Proof.
  unfold read_bytes. intros H.
  destruct (w_fs w !! p) as [fl|] eqn:Hfl; [|done].
  destruct (f_rd fl) eqn:Hrd; [|done]. injection H as <-.
  unfold with_open, open_, f_read, f_close, effect, get_world, mbind, M_bind,
    mret, M_ret. simpl.
  rewrite Hfl, Hrd. simpl.
  rewrite decide_True by (split; [apply list_elem_of_here|done]).
  simpl. rewrite Hfl. simpl. rewrite decide_True by done.
  by rewrite world_eta.
Qed.

Lemma file_text_appended p t fl w :
  file_text (appended p t (truncated p fl w)) p = Some t.
Proof.
  unfold file_text, file_bytes, appended, truncated. simpl.
  rewrite lookup_alter_eq, lookup_insert_eq. simpl.
  by rewrite decode_encode.
Qed.

Lemma with_open_write p w ps var_name data :
  can_write w p = true →
  ∃ mid,
    with_open p W (emit var_name data) (mkSys w ps)
    = (Ok tt, mkSys (written p (output_text var_name data) w) (mid ++ w :: ps))
    ∧ Forall (λ w', ∃ t1 t2, output_text var_name data = t1 +:+ t2
                             ∧ file_text w' p = Some t1) mid.
Proof.
  unfold can_write. intros Hcw.
  set (fl := default (File [] true true) (w_fs w !! p)).
  assert (open_ p W (mkSys w ps)
          = (Ok (p, W), mkSys (truncated p fl w) (w :: ps))) as Hopen.
  { unfold open_, get_world, effect, mbind, M_bind, mret, M_ret, fl. simpl.
    destruct (w_fs w !! p) as [fl'|]; simpl.
    - by rewrite Hcw.
    - apply bool_decide_eq_true in Hcw. by rewrite decide_True. }
  destruct (emit_writes (p, W) var_name data (mkSys (truncated p fl w) (w :: ps)))
    as (st & Hemit & Hnow & mid & Hpast & Hmid);
    [apply list_elem_of_here|done|].
  simpl in Hnow, Hpast, Hmid.
  exists (now st :: mid). split.
  - unfold with_open. rewrite Hopen, Hemit. unfold f_close, effect. simpl.
    rewrite Hpast, Hnow. f_equal. f_equal.
    unfold written, appended, truncated. simpl.
    rewrite decide_True by done. rewrite alter_insert_eq. reflexivity.
  - apply Forall_cons. split.
    + exists (output_text var_name data), "". split; [by rewrite sapp_nil_r|].
      rewrite Hnow. apply file_text_appended.
    + eapply Forall_impl; [exact Hmid|]. intros w' (t1 & t2 & Ht & ->).
      exists t1, t2. split; [done|]. apply file_text_appended.
Qed.

(** ** The script as a whole *)

Lemma len_cons {A} (x : A) l : len (x :: l) = (1 + len l)%Z.
Proof. unfold len. simpl length. lia. Qed.

Lemma len_nonneg {A} (l : list A) : (0 ≤ len l)%Z.
Proof. unfold len. lia. Qed.

(** With fewer than four entries in [sys.argv] the script prints the usage
    line and exits with status 2. *)
Lemma main_usage argv st :
  (len argv < 4)%Z →
  main argv st
  = (Raise (SystemExit 2),
     mkSys (mkWorld (w_fs (now st)) (w_creat (now st)) (w_open (now st))
                    (w_err (now st) +:+ usage +:+ nl))
           (now st :: past st)).
Proof.
  intros H. unfold main. apply Z.ltb_lt in H. rewrite H. reflexivity.
Qed.

(** With at least four entries the script is the two [with] blocks on the
    first three arguments. *)
Lemma main_args a0 i s o extra st :
  main (a0 :: i :: s :: o :: extra) st
  = (data ← with_open i RB (λ f, f_read f); with_open o W (emit s data)) st.
Proof.
  unfold main.
  assert ((len (a0 :: i :: s :: o :: extra) <? 4)%Z = false) as ->.
  { apply Z.ltb_ge. rewrite !len_cons. pose proof (len_nonneg extra). lia. }
  reflexivity.
Qed.

Lemma main_ok a0 i s o extra w data :
  read_bytes w i = Some data →
  can_write w o = true →
  ∃ mid,
    run (a0 :: i :: s :: o :: extra) w
    = (Ok tt, mkSys (written o (output_text s data) w)
                    (mid ++ [w; add_handle (i, RB) w; w]))
    ∧ Forall (λ w', ∃ t1 t2, output_text s data = t1 +:+ t2
                             ∧ file_text w' o = Some t1) mid.
Proof.
  intros Hr Hw. unfold run. rewrite main_args.
  destruct (with_open_write o w [add_handle (i, RB) w; w] s data Hw)
    as (mid & E & Hmid).
  exists mid. split; [|done].
  rewrite (bind_ok _ _ _ _ _ (with_open_read i w [] data Hr)). exact E.
Qed.

Lemma file_text_written p t w : file_text (written p t w) p = Some t.
Proof.
  unfold file_text, file_bytes, written. simpl.
  rewrite lookup_insert_eq. simpl. by rewrite decode_encode.
Qed.

(** ** Decimal literals *)

Lemma str_of_N (v : N) : str (Z.of_N v) = NilZero.string_of_uint (N.to_uint v).
Proof. by destruct v. Qed.

Lemma uint_val_pos d : ∀ p, uint_val d (Npos p) = Npos (Pos.of_uint_acc d p).
Proof.
  induction d; intros p; cbn [uint_val Pos.of_uint_acc]; [done|..];
    rewrite <- IHd; f_equal; lia.
Qed.

Lemma uint_val_of_uint d : uint_val d 0 = N.of_uint d.
Proof.
  unfold N.of_uint.
  induction d; cbn [uint_val Pos.of_uint]; [done|exact IHd|..];
    by rewrite <- uint_val_pos.
Qed.

Lemma literals_uint d : ∀ acc rest,
  literals (Some acc) (NilEmpty.string_of_uint d +:+ rest)
  = literals (Some (uint_val d acc)) rest.
Proof.
  induction d; intros acc rest; simpl NilEmpty.string_of_uint;
    rewrite ?sapp_cons; simpl; try done; rewrite IHd; do 3 f_equal; lia.
Qed.

Lemma literals_str_acc (v : N) rest :
  literals None (str (Z.of_N v) +:+ rest) = literals (Some v) rest.
Proof.
  rewrite str_of_N. rewrite <- (DecimalN.Unsigned.of_to v) at 2.
  rewrite <- uint_val_of_uint.
  destruct (N.to_uint v) as [|d|d|d|d|d|d|d|d|d|d];
    simpl NilZero.string_of_uint; simpl NilEmpty.string_of_uint;
    rewrite ?sapp_cons; simpl; try done; apply literals_uint.
Qed.

Lemma literals_skip pre rest :
  no_digit pre = true → literals None (pre +:+ rest) = literals None rest.
Proof.
  induction pre as [|c pre IH]; [done|]. rewrite sapp_cons. simpl.
  destruct (digit_of c); [done|]. exact IH.
Qed.

Lemma literals_end (v : N) post rest :
  no_digit post = true → post ≠ "" →
  literals (Some v) (post +:+ rest) = v :: literals None rest.
Proof.
  destruct post as [|c post]; [done|]. intros H _. rewrite sapp_cons.
  simpl in *. destruct (digit_of c); [done|]. simpl. f_equal.
  by apply literals_skip.
Qed.

Lemma literals_number (v : N) pre post rest :
  no_digit pre = true → no_digit post = true → post ≠ "" →
  literals None (pre +:+ str (Z.of_N v) +:+ post +:+ rest)
  = v :: literals None rest.
Proof.
  intros Hpre Hpost Hne.
  by rewrite (literals_skip _ _ Hpre), literals_str_acc, (literals_end _ _ _ Hpost Hne).
Qed.

Lemma cell_shape n i b :
  ∃ pre post, cell n i b = pre +:+ str (byte_int b) +:+ post
              ∧ no_digit pre = true ∧ no_digit post = true ∧ post ≠ "".
Proof.
  unfold cell.
  destruct (i `mod` 12 =? 0)%Z, (i =? n - 1)%Z, (i `mod` 12 =? 11)%Z;
    eexists _, _; (split; [reflexivity|done]).
Qed.

Lemma literals_cell n i b rest :
  literals None (cell n i b +:+ rest) = Byte.to_N b :: literals None rest.
Proof.
  destruct (cell_shape n i b) as (pre & post & -> & Hpre & Hpost & Hne).
  rewrite !sapp_assoc. by apply literals_number.
Qed.

Lemma literals_cells n data : ∀ i rest,
  literals None (cells n i data +:+ rest)
  = (Byte.to_N <$> data) ++ literals None rest.
Proof.
  induction data as [|b data IH]; intros i rest; simpl cells; [done|].
  rewrite sapp_assoc, literals_cell, IH. reflexivity.
Qed.

Lemma mapM_of_to_N (data : list byte) :
  mapM Byte.of_N (Byte.to_N <$> data) = Some data.
Proof.
  apply mapM_Some_2, Forall2_fmap_l, Forall_Forall2_diag, Forall_forall.
  intros b _. apply Byte.of_to_N.
Qed.

(** ** Locating the braces *)

Lemma strip_prefix_app p rest : strip_prefix p (p +:+ rest) = Some rest.
Proof.
  induction p as [|a p IH]; [done|]. rewrite sapp_cons. simpl.
  by rewrite Ascii.eqb_refl.
Qed.

Lemma split_at_app c pre rest :
  lacks c pre = true → split_at c (pre +:+ String c rest) = Some (pre, rest).
Proof.
  induction pre as [|a pre IH]; simpl.
  - intros _. rewrite ?sapp_nil_l. simpl. by rewrite Ascii.eqb_refl.
  - intros [Ha Hpre]%andb_true_iff. rewrite ?sapp_cons. simpl.
    apply negb_true_iff in Ha. rewrite Ha, (IH Hpre). reflexivity.
Qed.

Lemma lacks_app c s t : lacks c (s +:+ t) = lacks c s && lacks c t.
Proof.
  induction s as [|a s IH]; [done|]. rewrite sapp_cons. simpl.
  by rewrite IH, andb_assoc.
Qed.

Lemma lacks_uint c d :
  digit_of c = None → lacks c (NilEmpty.string_of_uint d) = true.
Proof.
  intros Hc. induction d; cbn [lacks NilEmpty.string_of_uint]; [done|..];
    rewrite IHd, andb_true_r;
    apply negb_true_iff, Ascii.eqb_neq; intros <-; discriminate Hc.
Qed.

Lemma lacks_str c (v : N) : digit_of c = None → lacks c (str (Z.of_N v)) = true.
Proof.
  intros Hc. rewrite str_of_N.
  destruct (N.to_uint v) as [|d|d|d|d|d|d|d|d|d|d];
    [|exact (lacks_uint c _ Hc)..].
  cbn [lacks NilZero.string_of_uint]. rewrite andb_true_r.
  apply negb_true_iff, Ascii.eqb_neq. intros <-. discriminate Hc.
Qed.

Lemma lacks_cells c n data :
  digit_of c = None → lacks c ("    , " +:+ nl) = true →
  ∀ i, lacks c (cells n i data) = true.
Proof.
  intros Hd Hc.
  assert ((" " =? c)%char = false ∧ ("," =? c)%char = false
          ∧ ("010" =? c)%char = false) as (E1 & E2 & E3).
  { revert Hc. unfold nl. rewrite !sapp_cons, sapp_nil_l. cbn [lacks].
    by destruct (" " =? c)%char, ("," =? c)%char, ("010" =? c)%char. }
  induction data as [|b data IH]; intros i; simpl cells; [done|].
  rewrite lacks_app, IH, andb_true_r. unfold cell, byte_int, nl.
  rewrite !lacks_app, (lacks_str _ _ Hd).
  destruct (i `mod` 12 =? 0)%Z, (i =? n - 1)%Z, (i `mod` 12 =? 11)%Z;
    cbn [lacks negb]; by rewrite ?E1, ?E2, ?E3.
Qed.

(** ** The reader inverts the writer *)

Lemma literals_len (n : nat) : literals None (str (Z.of_nat n)) = [N.of_nat n].
Proof.
  rewrite <- nat_N_Z, <- (sapp_nil_r (str _)), literals_str_acc. reflexivity.
Qed.

Lemma output_text_split var_name data :
  output_text var_name data
  = array_head var_name +:+
    (nl +:+ cells (len data) 0 data +:+ nl) +:+
    String "}" ((";" +:+ nl +:+ "extern const std::size_t "
                 +:+ (var_name +:+ "_len") +:+ " = ")
                +:+ str (len data) +:+ String ";" nl).
Proof. unfold output_text, size_line. by rewrite !sapp_assoc. Qed.

Lemma parse_output_text var_name data :
  parse_output var_name (output_text var_name data)
  = Some (data, N.of_nat (length data)).
Proof.
  rewrite output_text_split. unfold parse_output, array_head.
  rewrite strip_prefix_app. cbn [mbind option_bind].
  rewrite split_at_app; cycle 1.
  { rewrite !lacks_app, lacks_cells; done. }
  cbn [mbind option_bind].
  rewrite (literals_skip nl) by done.
  rewrite literals_cells. cbn [literals option_list]. rewrite (right_id [] (++)).
  rewrite mapM_of_to_N. cbn [mbind option_bind].
  rewrite strip_prefix_app. cbn [mbind option_bind].
  unfold len. rewrite <- nat_N_Z.
  rewrite split_at_app by (by apply lacks_str). cbn [mbind option_bind].
  rewrite nat_N_Z, literals_len. reflexivity.
Qed.

Lemma run_ok prog i s o w data :
  read_bytes w i = Some data →
  can_write w o = true →
  status [prog; i; s; o] w = 0%Z
  ∧ final [prog; i; s; o] w = written o (output_text s data) w
  ∧ file_text (final [prog; i; s; o] w) o = Some (output_text s data).
Proof.
  intros Hr Hw. unfold status, final.
  destruct (main_ok prog i s o [] w data Hr Hw) as (mid & -> & _).
  simpl. split; [done|]. split; [done|]. apply file_text_written.
Qed.

(** ** Failing to open *)

Lemma with_open_read_fail {A} p (body : handle → M A) st :
  read_bytes (now st) p = None →
  ∃ e, (e = FileNotFoundError ∨ e = PermissionError)
       ∧ with_open p RB body st = (Raise e, st).
Proof.
  unfold read_bytes, with_open, open_, get_world, mbind, M_bind. simpl.
  destruct (w_fs (now st) !! p) as [fl|]; [destruct (f_rd fl)|]; intros H;
    [done|exists PermissionError|exists FileNotFoundError]; auto.
Qed.

Lemma with_open_write_fail {A} p (body : handle → M A) st :
  can_write (now st) p = false →
  ∃ e, (e = FileNotFoundError ∨ e = PermissionError)
       ∧ with_open p W body st = (Raise e, st).
Proof.
  unfold can_write, with_open, open_, get_world, mbind, M_bind. simpl.
  destruct (w_fs (now st) !! p) as [fl|]; [destruct (f_wr fl)|]; intros H;
    [done|exists PermissionError; auto|exists FileNotFoundError].
  apply bool_decide_eq_false in H. rewrite decide_False by done. auto.
Qed.

(** Every run with at least three arguments either fails to open one of the
    two files, leaving the file system and the error stream as they were, or
    succeeds. *)
Lemma run_cases a0 i s o extra w :
  (∃ e, (e = FileNotFoundError ∨ e = PermissionError)
        ∧ (run (a0 :: i :: s :: o :: extra) w).1 = Raise e
        ∧ w_fs (final (a0 :: i :: s :: o :: extra) w) = w_fs w
        ∧ w_err (final (a0 :: i :: s :: o :: extra) w) = w_err w)
  ∨ (∃ data, read_bytes w i = Some data ∧ can_write w o = true
        ∧ (run (a0 :: i :: s :: o :: extra) w).1 = Ok tt
        ∧ final (a0 :: i :: s :: o :: extra) w = written o (output_text s data) w).
Proof.
  destruct (read_bytes w i) as [data|] eqn:Hr.
  - destruct (can_write w o) eqn:Hw.
    + right. exists data. unfold final.
      destruct (main_ok a0 i s o extra w data Hr Hw) as (mid & -> & _). done.
    + left. unfold final, run. rewrite main_args.
      rewrite (bind_ok _ _ _ _ _ (with_open_read i w [] data Hr)).
      destruct (with_open_write_fail o (emit s data)
                  (mkSys w [add_handle (i, RB) w; w]) Hw) as (e & He & ->).
      exists e. done.
  - left. unfold final, run. rewrite main_args.
    destruct (with_open_read_fail i (λ f, f_read f) (mkSys w []) Hr)
      as (e & He & E).
    exists e. unfold mbind, M_bind. rewrite E. done.
Qed.

(** ** The initializer item by item *)

Lemma cells_items n data : ∀ i,
  cells n i data
  = foldr String.append "" (imap (λ k b, cell n (i + Z.of_nat k) b) data).
Proof.
  induction data as [|b data IH]; intros i; [done|].
  cbn [cells imap foldr]. rewrite Z.add_0_r, IH. do 2 f_equal.
  apply imap_ext. intros k b' _. simpl. f_equal. lia.
Qed.

Lemma cell_explicit n i b :
  cell n i b
  = (if (i `mod` 12 =? 0)%Z then "    " else "") +:+ str (byte_int b) +:+
    (if (i =? n - 1)%Z then "" else ",") +:+
    (if (i `mod` 12 =? 11)%Z then nl else " ").
Proof.
  unfold cell.
  by destruct (i `mod` 12 =? 0)%Z, (i =? n - 1)%Z, (i `mod` 12 =? 11)%Z.
Qed.

Lemma all_digits_uint d : all_digits (NilEmpty.string_of_uint d) = true.
Proof. induction d; simpl; done. Qed.

Lemma all_digits_str (v : N) : all_digits (str (Z.of_N v)) = true.
Proof.
  rewrite str_of_N.
  destruct (N.to_uint v) as [|d|d|d|d|d|d|d|d|d|d];
    [done|exact (all_digits_uint _)..].
Qed.

(** ** The states of the write step *)

Lemma output_text_last var_name data :
  output_text var_name data
  = before_last var_name data +:+ size_line var_name (len data).
Proof. unfold output_text, before_last. by rewrite !sapp_assoc. Qed.

Lemma slength_app s t :
  String.length (s +:+ t) = String.length s + String.length t.
Proof. induction s as [|a s IH]; [done|]. rewrite sapp_cons. simpl. by rewrite IH. Qed.

Lemma length_encode s : length (encode s) = String.length s.
Proof.
  unfold encode, String.list_byte_of_string.
  induction s as [|a s IH]; [done|]. simpl. by rewrite IH.
Qed.

Lemma size_line_length var_name n : 1 ≤ String.length (size_line var_name n).
Proof. unfold size_line. rewrite slength_app. simpl. lia. Qed.

Lemma str_nonempty (v : N) : 1 ≤ String.length (str (Z.of_N v)).
Proof.
  destruct (str (Z.of_N v)) as [|c r] eqn:E; [|simpl; lia].
  pose proof (literals_str_acc v "") as H. rewrite E in H. discriminate H.
Qed.

Lemma cell_length n i b : 2 ≤ String.length (cell n i b).
Proof.
  unfold cell, byte_int. rewrite !slength_app.
  pose proof (str_nonempty (Byte.to_N b)).
  destruct (i `mod` 12 =? 0)%Z, (i =? n - 1)%Z, (i `mod` 12 =? 11)%Z;
    unfold nl; simpl; lia.
Qed.

Lemma cells_length n data : ∀ i, 2 * length data ≤ String.length (cells n i data).
Proof.
  induction data as [|b data IH]; intros i; cbn [cells]; [simpl; lia|].
  rewrite slength_app. pose proof (cell_length n i b).
  pose proof (IH (i + 1)%Z). simpl length. lia.
Qed.

Lemma before_last_length var_name data :
  2 * length data ≤ String.length (before_last var_name data).
Proof.
  unfold before_last. rewrite !slength_app.
  pose proof (cells_length (len data) data 0). lia.
Qed.

Lemma big_input_length : length big_input = Z.to_nat 16777216.
Proof. apply length_replicate. Qed.

Section last_write.
Variable f : handle.

Lemma ends_base tl : ends_with_write f "" tl (f_write f tl).
Proof.
  intros st Hin Hm.
  exists (mkSys (appended f.1 tl (now st)) (now st :: past st)), [].
  split; [by apply f_write_ok|]. split; [done|]. split; [|done].
  simpl. by rewrite appended_nil.
Qed.

Lemma ends_seq s t0 tl (m1 m2 : M unit) :
  writes f s m1 → ends_with_write f t0 tl m2 →
  ends_with_write f (s +:+ t0) tl (m1;; m2).
Proof.
  intros H1 H2 st Hin Hm.
  destruct (H1 st Hin Hm) as (st1 & E1 & Hn1 & mid1 & Hp1 & Hm1).
  destruct (H2 st1) as (st2 & mid2 & E2 & Hn2 & Hp2 & Hm2);
    [by rewrite Hn1|done|].
  exists st2, (mid2 ++ mid1). split; [by rewrite (bind_ok _ _ _ _ _ E1)|].
  split; [by rewrite Hn2, Hn1, appended_app, sapp_assoc|]. split.
  - by rewrite Hp2, Hp1, Hn1, appended_app, (assoc (++)).
  - apply Forall_app. split.
    + eapply Forall_impl; [exact Hm2|]. intros w' (t1 & t2 & -> & ->).
      exists (s +:+ t1), t2. split; [by rewrite sapp_assoc|].
      by rewrite Hn1, appended_app.
    + eapply Forall_impl; [exact Hm1|]. intros w' (t1 & t2 & -> & ->).
      exists t1, (t2 +:+ t0). split; [by rewrite sapp_assoc|done].
Qed.

Lemma emit_ends var_name data :
  ends_with_write f (before_last var_name data) (size_line var_name (len data))
    (emit var_name data f).
Proof.
  replace (before_last var_name data)
    with (("#include <cstddef>" +:+ nl) +:+
          ("extern const unsigned char " +:+ var_name +:+ "[] = {" +:+ nl) +:+
          cells (len data) 0 data +:+ (nl +:+ "};" +:+ nl) +:+ "")
    by (unfold before_last, array_head; by rewrite !sapp_assoc).
  unfold emit, size_line.
  repeat (apply ends_seq;
          [first [apply writes_write | apply for_enumerate_writes]|]).
  apply ends_base.
Qed.

End last_write.

Lemma holding_appended p t fl w :
  holding p t w (appended p t (truncated p fl w)).
Proof.
  split; [done|]. unfold file_bytes, appended, truncated. simpl.
  by rewrite lookup_alter_eq, lookup_insert_eq.
Qed.

(** The states a successful write block leaves behind: the state before
    [close], in which the whole text has been handed over, the state before
    the last write, and before them states that hold prefixes. *)
Lemma with_open_write_steps p w ps var_name data :
  can_write w p = true →
  ∃ s4 s3 mid,
    past (with_open p W (emit var_name data) (mkSys w ps)).2
    = s4 :: s3 :: mid ++ w :: ps
    ∧ holding p (output_text var_name data) w s4
    ∧ holding p (before_last var_name data) w s3
    ∧ Forall (λ w', ∃ t1 t2, before_last var_name data = t1 +:+ t2
                             ∧ holding p t1 w w') mid.
Proof.
  unfold can_write. intros Hcw.
  set (fl := default (File [] true true) (w_fs w !! p)).
  assert (open_ p W (mkSys w ps)
          = (Ok (p, W), mkSys (truncated p fl w) (w :: ps))) as Hopen.
  { unfold open_, get_world, effect, mbind, M_bind, mret, M_ret, fl. simpl.
    destruct (w_fs w !! p) as [fl'|]; simpl.
    - by rewrite Hcw.
    - apply bool_decide_eq_true in Hcw. by rewrite decide_True. }
  destruct (emit_ends (p, W) var_name data (mkSys (truncated p fl w) (w :: ps)))
    as (st & mid & Hemit & Hnow & Hpast & Hmid);
    [apply list_elem_of_here|done|].
  simpl in Hnow, Hpast, Hmid.
  exists (now st), (appended p (before_last var_name data) (truncated p fl w)), mid.
  split; [|split; [|split]].
  - unfold with_open. rewrite Hopen, Hemit. unfold f_close, effect. simpl.
    by rewrite Hpast.
  - rewrite Hnow, <- output_text_last. apply holding_appended.
  - apply holding_appended.
  - eapply Forall_impl; [exact Hmid|]. intros w' (t1 & t2 & Ht & ->).
    exists t1, t2. split; [done|]. apply holding_appended.
Qed.

Lemma filter_all {A} (P : A → Prop) `{∀ x, Decision (P x)} (l : list A) :
  Forall P l → filter P l = l.
Proof.
  induction 1 as [|x l Hx _ IH]; [done|].
  by rewrite filter_cons_True, IH.
Qed.

(** What a successful run hands to the file object of its output: prefixes
    of the text before the last write, that text, and the whole text. *)
Lemma handed_shape prog i s o w data :
  read_bytes w i = Some data →
  can_write w o = true →
  (o, W) ∉ w_open w →
  ∃ pre,
    handed [prog; i; s; o] o w
    = pre ++ [encode (before_last s data); encode (output_text s data)]
    ∧ Forall (λ h, ∃ t1 t2, before_last s data = t1 +:+ t2 ∧ h = encode t1) pre.
Proof.
  intros Hr Hw Hno. unfold handed, history, run. rewrite main_args.
  rewrite (bind_ok _ _ _ _ _ (with_open_read i w [] data Hr)).
  destruct (with_open_write_steps o w [add_handle (i, RB) w; w] s data Hw)
    as (s4 & s3 & mid & -> & [Ho4 Hb4] & [Ho3 Hb3] & Hmid).
  exists ((λ w', default [] (file_bytes w' o)) <$> reverse mid).
  split.
  - rewrite !reverse_cons, reverse_app, !filter_app, !fmap_app.
    change (reverse [w; add_handle (i, RB) w; w])
      with [w; add_handle (i, RB) w; w].
    rewrite (filter_cons_False _ w) by done.
    rewrite (filter_cons_False _ (add_handle (i, RB) w)); cycle 1.
    { simpl. intros [E | E]%elem_of_cons; [discriminate E|done]. }
    rewrite (filter_cons_False _ w) by done.
    rewrite filter_nil, (filter_all _ (reverse mid)); cycle 1.
    { apply Forall_reverse. eapply Forall_impl; [exact Hmid|].
      intros w' (t1 & t2 & _ & E & _). rewrite E. apply list_elem_of_here. }
    rewrite !filter_cons_True, !filter_nil
      by (rewrite ?Ho3, ?Ho4; apply list_elem_of_here).
    cbn [fmap list_fmap]. rewrite Hb3, Hb4. cbn [default app].
    by rewrite <- (assoc (++)).
  - apply Forall_fmap, Forall_reverse. eapply Forall_impl; [exact Hmid|].
    intros w' (t1 & t2 & Ht & _ & E). exists t1, t2. simpl. by rewrite E.
Qed.

Lemma final_bytes prog i s o w data :
  read_bytes w i = Some data →
  can_write w o = true →
  file_bytes (final [prog; i; s; o] w) o = Some (encode (output_text s data)).
Proof.
  intros Hr Hw. destruct (run_ok prog i s o w data Hr Hw) as (_ & -> & _).
  unfold file_bytes, written. simpl. by rewrite lookup_insert_eq.
Qed.

(** The write step is atomic exactly when everything the script writes
    before its last [f.write] fits in the buffer. *)
Lemma written_atomically_iff prog i s o w data cap :
  read_bytes w i = Some data →
  can_write w o = true →
  (o, W) ∉ w_open w →
  written_atomically cap [prog; i; s; o] o w
  ↔ String.length (before_last s data) ≤ cap.
Proof.
  intros Hr Hw Hno. unfold written_atomically.
  destruct (handed_shape prog i s o w data Hr Hw Hno) as (pre & -> & Hpre).
  rewrite (final_bytes prog i s o w data Hr Hw).
  pose proof (size_line_length s (len data)) as Hsz.
  assert (length (encode (output_text s data))
          = String.length (before_last s data)
            + String.length (size_line s (len data))) as HT.
  { by rewrite length_encode, output_text_last, slength_app. }
  split.
  - intros (disk & Hb & Hat).
    destruct (Hb (length pre) (encode (before_last s data))) as [Hp Hl].
    { by rewrite list_lookup_middle. }
    rewrite length_encode in Hl.
    destruct (Hat (length pre)) as [E | E].
    { rewrite length_app. cbn [length]. lia. }
    + rewrite E in Hl. cbn [length] in Hl. lia.
    + injection E as E. rewrite E in Hp. apply prefix_length in Hp.
      rewrite HT, length_encode in Hp. lia.
  - intros Hcap.
    exists (λ k, if decide (k ≤ length pre) then []
                 else encode (output_text s data)).
    split.
    + intros k h [Hk | [Hk Hk']]%lookup_app_Some.
      * rewrite decide_True by (apply lookup_lt_Some in Hk; lia).
        split; [apply prefix_nil|].
        destruct (proj1 (Forall_forall _ _) Hpre h) as (t1 & t2 & Ht & ->).
        { by eapply list_elem_of_lookup_2. }
        rewrite length_encode. cbn [length].
        apply (f_equal String.length) in Ht. rewrite slength_app in Ht. lia.
      * destruct (k - length pre) as [|[|n]] eqn:Ek; simpl in Hk';
          [| |done]; injection Hk' as <-.
        -- rewrite decide_True by lia. split; [apply prefix_nil|].
           rewrite length_encode. cbn [length]. lia.
        -- rewrite decide_False by lia. split; [done|lia].
    + intros k _. destruct (decide (k ≤ length pre)); [by left|by right].
Qed.

(** What a buffer can do, a larger buffer can do as well. *)
Lemma written_atomically_mono cap1 cap2 argv o w :
  cap1 ≤ cap2 →
  written_atomically cap1 argv o w → written_atomically cap2 argv o w.
Proof.
  intros Hc (disk & Hb & Hat). exists disk. split; [|done].
  intros k h Hk. destruct (Hb k h Hk) as [Hp Hl]. split; [done|lia].
Qed.

(** Whatever the buffer does, the disk holds a prefix of the final text. *)
Lemma disk_prefix prog i s o w data cap disk k h :
  read_bytes w i = Some data →
  can_write w o = true →
  (o, W) ∉ w_open w →
  buffered cap (handed [prog; i; s; o] o w) disk →
  handed [prog; i; s; o] o w !! k = Some h →
  disk k `prefix_of` encode (output_text s data).
Proof.
  intros Hr Hw Hno Hb Hk. destruct (Hb k h Hk) as [Hp _].
  etrans; [exact Hp|]. clear Hb Hp.
  destruct (handed_shape prog i s o w data Hr Hw Hno) as (pre & E & Hpre).
  rewrite E in Hk. rewrite output_text_last, encode_app.
  apply lookup_app_Some in Hk as [Hk | [_ Hk]].
  - destruct (proj1 (Forall_forall _ _) Hpre h) as (t1 & t2 & -> & ->).
    { by eapply list_elem_of_lookup_2. }
    rewrite encode_app, <- (assoc (++)). apply prefix_app_r. reflexivity.
  - destruct (k - length pre) as [|[|n]]; simpl in Hk; [| |done];
      injection Hk as <-.
    + apply prefix_app_r. reflexivity.
    + rewrite output_text_last, encode_app. reflexivity.
Qed.

(** * The claims *)

(** C1. Round trip: for every byte sequence [B], the empty one included,
    running the embedder on an input file that holds [B] succeeds, and
    reading the decimal literals between the braces of the array initializer
    of the file it wrote, in textual order, gives back exactly [B]. *)
Theorem embed_roundtrip prog i s o w (B : list byte) :
  read_bytes w i = Some B →
  can_write w o = true →
  status [prog; i; s; o] w = 0%Z
  ∧ file_text (final [prog; i; s; o] w) o ≫= parse_array s = Some B.
Proof.
  intros Hr Hw. destruct (run_ok prog i s o w B Hr Hw) as (Hst & _ & ->).
  split; [done|]. cbn [mbind option_bind]. unfold parse_array.
  by rewrite parse_output_text.
Qed.

Lemma embed_roundtrip_witness :
  read_bytes world_0_13 "blob" = Some bytes_0_13
  ∧ can_write world_0_13 "foo.cpp" = true
  ∧ status ["embed_bin.py"; "blob"; "foo"; "foo.cpp"] world_0_13 = 0%Z
  ∧ file_text (final ["embed_bin.py"; "blob"; "foo"; "foo.cpp"] world_0_13)
      "foo.cpp" ≫= parse_array "foo" = Some bytes_0_13.
Proof.
  split; [reflexivity|]. split; [reflexivity|].
  apply (embed_roundtrip "embed_bin.py" "blob" "foo" "foo.cpp" world_0_13
           bytes_0_13); reflexivity.
Defined.

(** C2. For every input [B] and symbol name [s] the output ends with the
    declaration of a size constant named [s ++ "_len"] whose value is the
    decimal rendering of [len(B)]; read back, the declared value is the
    number of bytes of [B]. *)
Theorem length_constant prog i s o w (B : list byte) :
  read_bytes w i = Some B →
  can_write w o = true →
  (∃ before,
     file_text (final [prog; i; s; o] w) o
     = Some (before +:+ "extern const std::size_t " +:+ (s +:+ "_len")
             +:+ " = " +:+ str (len B) +:+ ";" +:+ nl))
  ∧ file_text (final [prog; i; s; o] w) o ≫= parse_len s
    = Some (N.of_nat (length B)).
Proof.
  intros Hr Hw. destruct (run_ok prog i s o w B Hr Hw) as (_ & _ & ->).
  split.
  - exists (array_head s +:+ nl +:+ cells (len B) 0 B +:+ nl +:+ "};" +:+ nl).
    unfold output_text, size_line. by rewrite !sapp_assoc.
  - cbn [mbind option_bind]. unfold parse_len. by rewrite parse_output_text.
Qed.

Lemma length_constant_witness :
  read_bytes demo_world "in.bin" = Some [x00; x01; xff]
  ∧ can_write demo_world "out.cpp" = true
  ∧ file_text (final ["embed_bin.py"; "in.bin"; "img"; "out.cpp"] demo_world)
      "out.cpp" ≫= parse_len "img" = Some 3%N.
Proof.
  split; [reflexivity|]. split; [reflexivity|].
  apply (length_constant "embed_bin.py" "in.bin" "img" "out.cpp" demo_world
           [x00; x01; xff]); reflexivity.
Defined.

(** C3. The formatting contract.  The output is the preamble, the opening
    line of the array, one item per input byte, the closing line [};] and the
    single line that declares the size.  The item of the byte at index [k]
    is its value in decimal (digits only), preceded by four spaces when it
    starts a row, followed by a comma unless it is the last byte, and then
    by a newline when it is the 12th value of its row and by a space
    otherwise.  A newline follows the last item.  The symbol name is an
    identifier, so it holds no newline. *)
Theorem formatting_contract prog i s o w (B : list byte) :
  read_bytes w i = Some B →
  can_write w o = true →
  lacks "010" s = true →
  ∃ items : list string,
    file_text (final [prog; i; s; o] w) o
    = Some ("#include <cstddef>" +:+ nl +:+
            "extern const unsigned char " +:+ s +:+ "[] = {" +:+ nl +:+
            foldr String.append "" items +:+
            nl +:+ "};" +:+ nl +:+
            "extern const std::size_t " +:+ s +:+ "_len = " +:+ str (len B)
            +:+ ";" +:+ nl)
    ∧ length items = length B
    ∧ (∀ (k : nat) (b : byte), B !! k = Some b →
         items !! k
         = Some ((if (Z.of_nat k `mod` 12 =? 0)%Z then "    " else "") +:+
                 str (byte_int b) +:+
                 (if (Z.of_nat k =? len B - 1)%Z then "" else ",") +:+
                 (if (Z.of_nat k `mod` 12 =? 11)%Z then nl else " "))
           ∧ all_digits (str (byte_int b)) = true
           ∧ literals None (str (byte_int b)) = [Byte.to_N b])
    ∧ lacks "010" ("extern const std::size_t " +:+ s +:+ "_len = "
                   +:+ str (len B) +:+ ";") = true.
Proof.
  intros Hr Hw Hs. destruct (run_ok prog i s o w B Hr Hw) as (_ & _ & ->).
  exists (imap (λ k b, cell (len B) (Z.of_nat k) b) B).
  split; [|split; [|split]].
  - unfold output_text, array_head, size_line.
    rewrite (cells_items (len B) B 0), !sapp_assoc. reflexivity.
  - apply length_imap.
  - intros k b Hk. rewrite list_lookup_imap, Hk. simpl.
    rewrite cell_explicit. split; [done|]. unfold byte_int.
    split; [apply all_digits_str|].
    rewrite <- (sapp_nil_r (str _)), literals_str_acc. reflexivity.
  - unfold len. rewrite <- nat_N_Z. rewrite !lacks_app, Hs, lacks_str by done.
    reflexivity.
Qed.

Lemma formatting_contract_witness :
  read_bytes world_0_13 "blob" = Some bytes_0_13
  ∧ can_write world_0_13 "foo.cpp" = true
  ∧ lacks "010" "foo" = true
  ∧ ∃ items : list string,
      file_text (final ["embed_bin.py"; "blob"; "foo"; "foo.cpp"] world_0_13)
        "foo.cpp"
      = Some ("#include <cstddef>" +:+ nl +:+
              "extern const unsigned char " +:+ "foo" +:+ "[] = {" +:+ nl +:+
              foldr String.append "" items +:+
              nl +:+ "};" +:+ nl +:+
              "extern const std::size_t " +:+ "foo" +:+ "_len = "
              +:+ str (len bytes_0_13) +:+ ";" +:+ nl)
      ∧ length items = 14.
Proof.
  split; [reflexivity|]. split; [reflexivity|]. split; [reflexivity|].
  destruct (formatting_contract "embed_bin.py" "blob" "foo" "foo.cpp"
              world_0_13 bytes_0_13) as (items & H1 & H2 & _);
    [reflexivity..|].
  exists items. by split.
Defined.

(** C4. For the 14 input bytes 0, 1, ..., 13 and the symbol name [foo] the
    output is exactly the six lines below: the initializer holds two lines of
    values, the first with the twelve values 0 to 11, each followed by a
    comma, the second with [12, 13] (indented like the first and ending in a
    space), and the last line declares [foo_len] with the value 14. *)
Theorem scenario_0_13 prog i o w :
  read_bytes w i = Some bytes_0_13 →
  can_write w o = true →
  file_text (final [prog; i; "foo"; o] w) o
  = Some (String.concat nl
      [ "#include <cstddef>";
        "extern const unsigned char foo[] = {";
        "    0, 1, 2, 3, 4, 5, 6, 7, 8, 9, 10, 11,";
        "    12, 13 ";
        "};";
        "extern const std::size_t foo_len = 14;";
        "" ]).
Proof.
  intros Hr Hw. destruct (run_ok prog i "foo" o w _ Hr Hw) as (_ & _ & ->).
  reflexivity.
Qed.

Lemma scenario_0_13_witness :
  read_bytes world_0_13 "blob" = Some bytes_0_13
  ∧ can_write world_0_13 "foo.cpp" = true
  ∧ file_text (final ["embed_bin.py"; "blob"; "foo"; "foo.cpp"] world_0_13)
      "foo.cpp"
    = Some (String.concat nl
        [ "#include <cstddef>";
          "extern const unsigned char foo[] = {";
          "    0, 1, 2, 3, 4, 5, 6, 7, 8, 9, 10, 11,";
          "    12, 13 ";
          "};";
          "extern const std::size_t foo_len = 14;";
          "" ]).
Proof.
  split; [reflexivity|]. split; [reflexivity|].
  apply (scenario_0_13 "embed_bin.py" "blob" "foo.cpp" world_0_13); reflexivity.
Defined.

(** C5. For the empty input the output declares the array with nothing but
    two newlines between the braces of its initializer, so that the
    initializer lists no byte value, and declares the size constant with the
    value 0. *)
Theorem empty_input prog i s o w :
  read_bytes w i = Some [] →
  can_write w o = true →
  file_text (final [prog; i; s; o] w) o
  = Some ("#include <cstddef>" +:+ nl +:+
          "extern const unsigned char " +:+ s +:+ "[] = {" +:+ nl +:+
          nl +:+
          "};" +:+ nl +:+
          "extern const std::size_t " +:+ s +:+ "_len = 0;" +:+ nl)
  ∧ file_text (final [prog; i; s; o] w) o ≫= parse_output s = Some ([], 0%N).
Proof.
  intros Hr Hw. destruct (run_ok prog i s o w _ Hr Hw) as (_ & _ & ->).
  split.
  - unfold output_text, array_head, size_line. rewrite !sapp_assoc. reflexivity.
  - cbn [mbind option_bind]. by rewrite parse_output_text.
Qed.

Lemma empty_input_witness :
  read_bytes empty_world "empty" = Some []
  ∧ can_write empty_world "e.cpp" = true
  ∧ file_text (final ["embed_bin.py"; "empty"; "nothing"; "e.cpp"] empty_world)
      "e.cpp" ≫= parse_output "nothing" = Some ([], 0%N).
Proof.
  split; [reflexivity|]. split; [reflexivity|].
  apply (empty_input "embed_bin.py" "empty" "nothing" "e.cpp" empty_world);
    reflexivity.
Defined.

(** C6. Invoked with fewer than three positional arguments, that is, with
    fewer than four entries in [sys.argv], the script prints the usage line
    to the error stream and exits with status 2; printing is its only
    effect: no file is opened, created or modified. *)
Theorem usage_error argv w :
  length argv < 4 →
  status argv w = 2%Z
  ∧ w_err (final argv w) = w_err w +:+ usage +:+ nl
  ∧ w_fs (final argv w) = w_fs w
  ∧ w_open (final argv w) = w_open w
  ∧ history argv w = [w].
Proof.
  intros H. unfold status, final, history, run.
  rewrite main_usage by (unfold len; lia). done.
Qed.

Lemma usage_error_witness :
  length ["embed_bin.py"; "in.bin"; "img"] < 4
  ∧ status ["embed_bin.py"; "in.bin"; "img"] demo_world = 2%Z
  ∧ w_fs (final ["embed_bin.py"; "in.bin"; "img"] demo_world) = w_fs demo_world.
Proof.
  split; [simpl; lia|].
  destruct (usage_error ["embed_bin.py"; "in.bin"; "img"] demo_world)
    as (H1 & _ & H2 & _); [simpl; lia|]. by split.
Defined.

(** C7. When the input path cannot be opened for reading the run ends with
    an uncaught [OSError] (exit status 1) and has had no effect at all: the
    world is the one the run started in and no state was passed through, so
    the output path was not opened, created or truncated. *)
Theorem unreadable_input prog i s o w :
  read_bytes w i = None →
  (∃ e, (e = FileNotFoundError ∨ e = PermissionError)
        ∧ (run [prog; i; s; o] w).1 = Raise e)
  ∧ status [prog; i; s; o] w = 1%Z
  ∧ final [prog; i; s; o] w = w
  ∧ history [prog; i; s; o] w = [].
Proof.
  intros Hr. unfold status, final, history, run. rewrite main_args.
  destruct (with_open_read_fail i (λ f, f_read f) (mkSys w []) Hr)
    as (e & He & E).
  unfold mbind, M_bind. rewrite E. simpl.
  split; [by exists e|]. by destruct He as [-> | ->].
Qed.

Lemma unreadable_input_witness :
  read_bytes demo_world "missing.bin" = None
  ∧ status ["embed_bin.py"; "missing.bin"; "img"; "out.cpp"] demo_world = 1%Z
  ∧ final ["embed_bin.py"; "missing.bin"; "img"; "out.cpp"] demo_world
    = demo_world.
Proof.
  split; [reflexivity|].
  destruct (unreadable_input "embed_bin.py" "missing.bin" "img" "out.cpp"
              demo_world) as (_ & H1 & H2 & _); [reflexivity|]. by split.
Defined.

(** C8. The embedder is deterministic: two runs on inputs that hold the same
    bytes, with the same symbol name, write byte-for-byte the same output,
    whatever else differs between the two worlds and whatever the paths
    are. *)
Theorem deterministic prog1 prog2 i1 i2 s o1 o2 w1 w2 (B : list byte) :
  read_bytes w1 i1 = Some B →
  read_bytes w2 i2 = Some B →
  can_write w1 o1 = true →
  can_write w2 o2 = true →
  is_Some (file_bytes (final [prog1; i1; s; o1] w1) o1)
  ∧ file_bytes (final [prog1; i1; s; o1] w1) o1
    = file_bytes (final [prog2; i2; s; o2] w2) o2.
Proof.
  intros Hr1 Hr2 Hw1 Hw2.
  destruct (run_ok prog1 i1 s o1 w1 B Hr1 Hw1) as (_ & -> & _).
  destruct (run_ok prog2 i2 s o2 w2 B Hr2 Hw2) as (_ & -> & _).
  unfold file_bytes, written. simpl. rewrite !lookup_insert_eq. simpl.
  split; [by eexists|done].
Qed.

Lemma deterministic_witness :
  read_bytes world_0_13 "blob" = Some bytes_0_13
  ∧ can_write world_0_13 "foo.cpp" = true
  ∧ file_bytes (final ["embed_bin.py"; "blob"; "foo"; "foo.cpp"] world_0_13)
      "foo.cpp"
    = file_bytes (final ["./embed"; "blob"; "foo"; "foo.cpp"] world_0_13)
        "foo.cpp".
Proof.
  split; [reflexivity|]. split; [reflexivity|].
  apply (deterministic "embed_bin.py" "./embed" "blob" "blob" "foo" "foo.cpp"
           "foo.cpp" world_0_13 world_0_13 bytes_0_13); reflexivity.
Defined.

(** X6. Running the embedder a second time on the same arguments, in the
    world the first run left, changes nothing (the input and the output being
    different files). *)
Lemma rerun_idempotent prog i s o w (B : list byte) :
  read_bytes w i = Some B →
  can_write w o = true →
  i ≠ o →
  final [prog; i; s; o] (final [prog; i; s; o] w) = final [prog; i; s; o] w.
Proof.
  intros Hr Hw Hio.
  destruct (run_ok prog i s o w B Hr Hw) as (_ & E & _). rewrite E.
  set (w1 := written o (output_text s B) w).
  assert (read_bytes w1 i = Some B) as Hr1.
  { unfold read_bytes, w1, written in *. simpl.
    by rewrite lookup_insert_ne. }
  assert (can_write w1 o = true) as Hw1.
  { unfold can_write, w1, written in *. simpl. rewrite lookup_insert_eq. simpl.
    by destruct (w_fs w !! o). }
  destruct (run_ok prog i s o w1 B Hr1 Hw1) as (_ & -> & _).
  unfold w1, written. simpl. rewrite lookup_insert_eq, insert_insert_eq.
  reflexivity.
Qed.





(** * Further properties of the script *)

(** ** Every way a run can end *)

Lemma argv_cases (argv : list string) :
  length argv < 4 ∨ ∃ a0 i s o extra, argv = a0 :: i :: s :: o :: extra.
Proof.
  destruct argv as [|a0 [|i [|s [|o extra]]]]; simpl; [left; lia..|].
  right. by exists a0, i, s, o, extra.
Qed.

(** With fewer than three arguments only the error stream changes. *)
Lemma usage_like argv w :
  length argv < 4 →
  w_fs (final argv w) = w_fs w
  ∧ w_open (final argv w) = w_open w
  ∧ w_creat (final argv w) = w_creat w.
Proof.
  intros H. unfold final, run.
  rewrite main_usage by (unfold len; lia). done.
Qed.

(** A run with at least three arguments that fails restores the world it
    started in; the other runs end in [written]. *)
Lemma run_outcome a0 i s o extra w :
  (∃ e, (e = FileNotFoundError ∨ e = PermissionError)
        ∧ (run (a0 :: i :: s :: o :: extra) w).1 = Raise e
        ∧ (read_bytes w i = None ∨ can_write w o = false)
        ∧ final (a0 :: i :: s :: o :: extra) w = w)
  ∨ (∃ data, read_bytes w i = Some data ∧ can_write w o = true
        ∧ (run (a0 :: i :: s :: o :: extra) w).1 = Ok tt
        ∧ final (a0 :: i :: s :: o :: extra) w = written o (output_text s data) w).
Proof.
  destruct (read_bytes w i) as [data|] eqn:Hr.
  - destruct (can_write w o) eqn:Hw.
    + right. exists data. unfold final.
      destruct (main_ok a0 i s o extra w data Hr Hw) as (mid & -> & _). done.
    + left. unfold final, run. rewrite main_args.
      rewrite (bind_ok _ _ _ _ _ (with_open_read i w [] data Hr)).
      destruct (with_open_write_fail o (emit s data)
                  (mkSys w [add_handle (i, RB) w; w]) Hw) as (e & He & ->).
      exists e. auto.
  - left. unfold final, run. rewrite main_args.
    destruct (with_open_read_fail i (λ f, f_read f) (mkSys w []) Hr)
      as (e & He & E).
    exists e. unfold mbind, M_bind. rewrite E. auto.
Qed.

(** X1. When the input can be read but the output path cannot be opened for
    writing, the run ends with an uncaught [OSError], exit status 1, in the
    world it started in: the input handle was closed again, an existing
    output file was not truncated, and the only states passed through are
    those of opening and closing the input. *)
Theorem output_unwritable prog i s o w (B : list byte) :
  read_bytes w i = Some B →
  can_write w o = false →
  (∃ e, (e = FileNotFoundError ∨ e = PermissionError)
        ∧ (run [prog; i; s; o] w).1 = Raise e)
  ∧ status [prog; i; s; o] w = 1%Z
  ∧ final [prog; i; s; o] w = w
  ∧ history [prog; i; s; o] w = [add_handle (i, RB) w; w].
Proof.
  intros Hr Hw. unfold status, final, history, run. rewrite main_args.
  rewrite (bind_ok _ _ _ _ _ (with_open_read i w [] B Hr)).
  destruct (with_open_write_fail o (emit s B)
              (mkSys w [add_handle (i, RB) w; w]) Hw) as (e & He & ->).
  simpl. split; [by exists e|]. by destruct He as [-> | ->].
Qed.

Lemma output_unwritable_witness :
  read_bytes two_files_world "a.bin" = Some [x01; x02]
  ∧ can_write two_files_world "ro.cpp" = false
  ∧ status ["embed_bin.py"; "a.bin"; "a"; "ro.cpp"] two_files_world = 1%Z
  ∧ final ["embed_bin.py"; "a.bin"; "a"; "ro.cpp"] two_files_world
    = two_files_world.
Proof.
  split; [reflexivity|]. split; [reflexivity|].
  destruct (output_unwritable "embed_bin.py" "a.bin" "a" "ro.cpp"
              two_files_world [x01; x02]) as (_ & H1 & H2 & _);
    [reflexivity..|]. by split.
Defined.

(** X2. Whatever the arguments and however the run ends, no file other than
    the one named by the third argument is created, changed or removed; in
    particular the input is left alone unless it is also the output. *)
Theorem other_files_untouched argv w p :
  argv !! 3 ≠ Some p →
  w_fs (final argv w) !! p = w_fs w !! p.
Proof.
  intros Hp. destruct (argv_cases argv) as [Hlt | (a0 & i & s & o & extra & ->)].
  - by destruct (usage_like argv w Hlt) as (-> & _).
  - destruct (run_outcome a0 i s o extra w)
      as [(e & _ & _ & _ & ->) | (data & _ & _ & _ & ->)]; [done|].
    unfold written. simpl. apply lookup_insert_ne. intros ->. by apply Hp.
Qed.

Lemma other_files_untouched_witness :
  ["embed_bin.py"; "a.bin"; "a"; "a.cpp"] !! 3 ≠ Some "b.bin"
  ∧ w_fs (final ["embed_bin.py"; "a.bin"; "a"; "a.cpp"] two_files_world)
      !! "b.bin"
    = w_fs two_files_world !! "b.bin".
Proof.
  assert (["embed_bin.py"; "a.bin"; "a"; "a.cpp"] !! 3 ≠ Some "b.bin") as H
    by (simpl; discriminate).
  split; [exact H|].
  exact (other_files_untouched ["embed_bin.py"; "a.bin"; "a"; "a.cpp"]
           two_files_world "b.bin" H).
Defined.

(** X3. Every run, whatever its arguments and however it ends, leaves the
    process with exactly the handles it started with: both files are closed
    on every exit path. *)
Theorem handles_released argv w :
  w_open (final argv w) = w_open w.
Proof.
  destruct (argv_cases argv) as [Hlt | (a0 & i & s & o & extra & ->)].
  - by destruct (usage_like argv w Hlt) as (_ & -> & _).
  - by destruct (run_outcome a0 i s o extra w)
      as [(e & _ & _ & _ & ->) | (data & _ & _ & _ & ->)].
Qed.

(** ** Runs one after the other *)

Lemma read_bytes_written i o t w :
  i ≠ o → read_bytes (written o t w) i = read_bytes w i.
Proof. intros H. unfold read_bytes, written. simpl. by rewrite lookup_insert_ne. Qed.

Lemma can_write_written p o t w :
  p ≠ o → can_write (written o t w) p = can_write w p.
Proof. intros H. unfold can_write, written. simpl. by rewrite lookup_insert_ne. Qed.

Lemma file_text_written_ne p o t w :
  p ≠ o → file_text (written o t w) p = file_text w p.
Proof.
  intros H. unfold file_text, file_bytes, written. simpl.
  by rewrite lookup_insert_ne.
Qed.

Lemma written_commute o1 o2 t1 t2 w :
  o1 ≠ o2 →
  written o2 t2 (written o1 t1 w) = written o1 t1 (written o2 t2 w).
Proof.
  intros H. unfold written. simpl.
  rewrite !lookup_insert_ne by done. f_equal. by apply insert_insert_ne.
Qed.

Lemma rerun_idempotent_witness :
  read_bytes two_files_world "a.bin" = Some [x01; x02]
  ∧ can_write two_files_world "a.cpp" = true
  ∧ "a.bin" ≠ "a.cpp"
  ∧ final ["embed_bin.py"; "a.bin"; "a"; "a.cpp"]
      (final ["embed_bin.py"; "a.bin"; "a"; "a.cpp"] two_files_world)
    = final ["embed_bin.py"; "a.bin"; "a"; "a.cpp"] two_files_world.
Proof.
  assert ("a.bin" ≠ "a.cpp") as H by discriminate.
  split; [reflexivity|]. split; [reflexivity|]. split; [exact H|].
  apply (rerun_idempotent "embed_bin.py" "a.bin" "a" "a.cpp" two_files_world
           [x01; x02]); [reflexivity|reflexivity|exact H].
Defined.

(** X7. Two runs that write different files, neither of which is the input
    of the other, can be made in either order: the resulting world is the
    same, and each output reads back as the input of its run. *)
Theorem runs_commute p1 p2 i1 i2 s1 s2 o1 o2 w (B1 B2 : list byte) :
  read_bytes w i1 = Some B1 →
  read_bytes w i2 = Some B2 →
  can_write w o1 = true →
  can_write w o2 = true →
  o1 ≠ o2 → i1 ≠ o2 → i2 ≠ o1 →
  final [p2; i2; s2; o2] (final [p1; i1; s1; o1] w)
  = final [p1; i1; s1; o1] (final [p2; i2; s2; o2] w)
  ∧ file_text (final [p2; i2; s2; o2] (final [p1; i1; s1; o1] w)) o1
    ≫= parse_array s1 = Some B1
  ∧ file_text (final [p2; i2; s2; o2] (final [p1; i1; s1; o1] w)) o2
    ≫= parse_array s2 = Some B2.
Proof.
  intros Hr1 Hr2 Hw1 Hw2 Ho H12 H21.
  destruct (run_ok p1 i1 s1 o1 w B1 Hr1 Hw1) as (_ & E1 & _).
  destruct (run_ok p2 i2 s2 o2 w B2 Hr2 Hw2) as (_ & E2 & _).
  rewrite E1, E2.
  destruct (run_ok p2 i2 s2 o2 (written o1 (output_text s1 B1) w) B2)
    as (_ & -> & _).
  { by rewrite read_bytes_written. }
  { by rewrite can_write_written. }
  destruct (run_ok p1 i1 s1 o1 (written o2 (output_text s2 B2) w) B1)
    as (_ & -> & _).
  { by rewrite read_bytes_written. }
  { by rewrite can_write_written. }
  split; [by apply written_commute|]. split.
  - rewrite file_text_written_ne, file_text_written by done.
    cbn [mbind option_bind]. unfold parse_array. by rewrite parse_output_text.
  - rewrite file_text_written.
    cbn [mbind option_bind]. unfold parse_array. by rewrite parse_output_text.
Qed.

Lemma runs_commute_witness :
  read_bytes two_files_world "a.bin" = Some [x01; x02]
  ∧ read_bytes two_files_world "b.bin" = Some [xff]
  ∧ final ["embed_bin.py"; "b.bin"; "b"; "b.cpp"]
      (final ["embed_bin.py"; "a.bin"; "a"; "a.cpp"] two_files_world)
    = final ["embed_bin.py"; "a.bin"; "a"; "a.cpp"]
        (final ["embed_bin.py"; "b.bin"; "b"; "b.cpp"] two_files_world).
Proof.
  split; [reflexivity|]. split; [reflexivity|].
  apply (runs_commute "embed_bin.py" "embed_bin.py" "a.bin" "b.bin" "a" "b"
           "a.cpp" "b.cpp" two_files_world [x01; x02] [xff]);
    first [reflexivity | discriminate].
Defined.

(** ** The handles held during a run *)

Lemma with_open_write_handles p w ps var_name data :
  can_write w p = true →
  ∃ mid,
    past (with_open p W (emit var_name data) (mkSys w ps)).2 = mid ++ w :: ps
    ∧ Forall (λ w', w_open w' = (p, W) :: w_open w) mid.
Proof.
  unfold can_write. intros Hcw.
  set (fl := default (File [] true true) (w_fs w !! p)).
  assert (open_ p W (mkSys w ps)
          = (Ok (p, W), mkSys (truncated p fl w) (w :: ps))) as Hopen.
  { unfold open_, get_world, effect, mbind, M_bind, mret, M_ret, fl. simpl.
    destruct (w_fs w !! p) as [fl'|]; simpl.
    - by rewrite Hcw.
    - apply bool_decide_eq_true in Hcw. by rewrite decide_True. }
  destruct (emit_writes (p, W) var_name data (mkSys (truncated p fl w) (w :: ps)))
    as (st & Hemit & Hnow & mid & Hpast & Hmid);
    [apply list_elem_of_here|done|].
  simpl in Hnow, Hpast, Hmid.
  exists (now st :: mid). split.
  - unfold with_open. rewrite Hopen, Hemit. unfold f_close, effect. simpl.
    by rewrite Hpast.
  - apply Forall_cons. split; [by rewrite Hnow|].
    eapply Forall_impl; [exact Hmid|]. by intros w' (t1 & t2 & _ & ->).
Qed.

(** X8. The two files are never open together: in every state a run passes
    through, the process holds the handles it started with and at most one
    more, the input opened for reading or the output opened for writing.
    The input is closed before the output is opened. *)
Theorem one_handle_at_a_time prog i s o w :
  Forall (handles_ok i o w) (history [prog; i; s; o] w).
Proof.
  unfold history, run. rewrite main_args.
  destruct (read_bytes w i) as [data|] eqn:Hr.
  - rewrite (bind_ok _ _ _ _ _ (with_open_read i w [] data Hr)).
    assert (Forall (handles_ok i o w) [add_handle (i, RB) w; w]) as Hrd.
    { repeat apply Forall_cons_2; [right; by left|by left|apply Forall_nil_2]. }
    destruct (can_write w o) eqn:Hw.
    + destruct (with_open_write_handles o w [add_handle (i, RB) w; w] s data Hw)
        as (mid & -> & Hmid).
      apply Forall_app. split.
      * eapply Forall_impl; [exact Hmid|]. intros w' E. right. by right.
      * apply Forall_cons_2; [by left|exact Hrd].
    + by destruct (with_open_write_fail o (emit s data)
                     (mkSys w [add_handle (i, RB) w; w]) Hw) as (e & _ & ->).
  - destruct (with_open_read_fail i (λ f, f_read f) (mkSys w []) Hr)
      as (e & _ & E).
    unfold mbind, M_bind. rewrite E. apply Forall_nil_2.
Qed.

(** ** The initializer line by line *)

Lemma initializer_text_output var_name data :
  initializer_text var_name (output_text var_name data)
  = Some (nl +:+ cells (len data) 0 data +:+ nl).
Proof.
  rewrite output_text_split. unfold initializer_text, array_head.
  rewrite strip_prefix_app. cbn [mbind option_bind].
  rewrite split_at_app; [done|].
  rewrite !lacks_app, lacks_cells; done.
Qed.

Lemma lines_nonempty s : lines s ≠ [].
Proof.
  destruct s as [|c s]; [done|]. simpl.
  destruct (Ascii.eqb c "010"); [done|]. by destruct (lines s).
Qed.

Lemma lines_nl s : lines (nl +:+ s) = "" :: lines s.
Proof. reflexivity. Qed.

Lemma lines_app a b :
  lacks "010" a = true →
  lines (a +:+ b) = (a +:+ hd "" (lines b)) :: tl (lines b).
Proof.
  induction a as [|c a IH]; cbn [lacks]; rewrite ?sapp_nil_l, ?sapp_cons.
  - intros _. pose proof (lines_nonempty b). by destruct (lines b).
  - intros [Hc Ha]%andb_true_iff. apply negb_true_iff in Hc.
    cbn [lines]. rewrite Hc, (IH Ha). reflexivity.
Qed.

(** Newlines separate literals, so the literals of a text are those of its
    lines, one line after the other. *)
Lemma literals_lines s : ∀ cur,
  literals cur s
  = literals cur (hd "" (lines s)) ++ concat (literals None <$> tl (lines s)).
Proof.
  induction s as [|c s IH]; intros cur.
  - simpl. by rewrite (right_id [] (++)).
  - cbn [lines]. destruct (Ascii.eqb c "010") eqn:Hc.
    + apply Ascii.eqb_eq in Hc as ->. cbn [hd tl literals fmap list_fmap concat].
      change (digit_of "010") with (@None N). cbn [option_list].
      rewrite (IH None). pose proof (lines_nonempty s).
      destruct (lines s) as [|l ls]; [done|]. reflexivity.
    + pose proof (lines_nonempty s).
      destruct (lines s) as [|l ls] eqn:E; [done|].
      cbn [hd tl literals]. cbn [hd tl] in IH.
      destruct (digit_of c); [apply IH|].
      by rewrite (IH None), (assoc (++)).
Qed.

Lemma literals_rows s : concat (literals None <$> lines s) = literals None s.
Proof.
  rewrite (literals_lines s None). pose proof (lines_nonempty s).
  by destruct (lines s).
Qed.

Lemma cell_ends_row n i b :
  (i `mod` 12 =? 11)%Z = true →
  ∃ l, cell n i b = l +:+ nl ∧ lacks "010" l = true
       ∧ literals None l = [Byte.to_N b].
Proof.
  intros H. unfold cell, byte_int. rewrite H.
  exists ((if (i `mod` 12 =? 0)%Z then "    " else "") +:+
          str (Z.of_N (Byte.to_N b)) +:+
          (if negb (i =? n - 1)%Z then "," else "")).
  split; [by rewrite !sapp_assoc|]. split.
  - rewrite !lacks_app, lacks_str by done.
    by destruct (i `mod` 12 =? 0)%Z, (i =? n - 1)%Z.
  - rewrite literals_skip by (by destruct (i `mod` 12 =? 0)%Z).
    rewrite literals_str_acc. by destruct (i =? n - 1)%Z.
Qed.

Lemma cell_inside_row n i b :
  (i `mod` 12 =? 11)%Z = false → lacks "010" (cell n i b) = true.
Proof.
  intros H. unfold cell, byte_int. rewrite H.
  rewrite !lacks_app, lacks_str by done.
  by destruct (i `mod` 12 =? 0)%Z, (i =? n - 1)%Z.
Qed.

(** The first line of what the loop writes from index [i] on has room for
    the values up to the end of the row of [i]; the lines behind it hold at
    most 12 values each. *)
Lemma rows_bound n data : ∀ i,
  ∃ r rs, literals None <$> lines (cells n i data +:+ nl) = r :: rs
          ∧ (Z.of_nat (length r) + i `mod` 12 ≤ 12)%Z
          ∧ Forall (λ x, length x ≤ 12) rs.
Proof.
  induction data as [|b data IH]; intros i; cbn [cells].
  - exists [], [[]]. split; [done|]. split.
    + pose proof (Z.mod_pos_bound i 12). simpl. lia.
    + apply Forall_singleton. simpl. lia.
  - destruct (IH (i + 1)%Z) as (r & rs & E & Hr & Hrs).
    rewrite sapp_assoc.
    destruct (i `mod` 12 =? 11)%Z eqn:Hi.
    + destruct (cell_ends_row n i b Hi) as (l & -> & Hl & Hlit).
      rewrite sapp_assoc, (lines_app l _ Hl), lines_nl. cbn [hd tl].
      rewrite sapp_nil_r, fmap_cons, E, Hlit.
      exists [Byte.to_N b], (r :: rs). split; [done|]. split.
      * apply Z.eqb_eq in Hi. simpl. lia.
      * apply Forall_cons. split; [|done].
        pose proof (Z.mod_pos_bound (i + 1) 12). lia.
    + rewrite (lines_app _ _ (cell_inside_row n i b Hi)).
      pose proof (lines_nonempty (cells n (i + 1) data +:+ nl)).
      destruct (lines (cells n (i + 1) data +:+ nl)) as [|h t]; [done|].
      cbn [hd tl]. rewrite fmap_cons, literals_cell.
      rewrite fmap_cons in E. injection E as E1 E2.
      exists (Byte.to_N b :: literals None h), (literals None <$> t).
      split; [done|]. split; [|by rewrite E2].
      rewrite E1. apply Z.eqb_neq in Hi. simpl length.
      assert ((i + 1) `mod` 12 = i `mod` 12 + 1)%Z as Hm.
      { pose proof (Z.mod_pos_bound i 12).
        rewrite Z.add_mod by done. rewrite (Z.mod_small 1) by lia.
        apply Z.mod_small. lia. }
      lia.
Qed.

(** X9. Read line by line, the initializer of the generated array holds at
    most 12 values on every line, and the values of its lines, one line
    after the other, are the bytes of the input. *)
Theorem rows_of_at_most_12 prog i s o w (B : list byte) :
  read_bytes w i = Some B →
  can_write w o = true →
  ∃ body,
    file_text (final [prog; i; s; o] w) o ≫= initializer_text s = Some body
    ∧ Forall (λ l, length (literals None l) ≤ 12) (lines body)
    ∧ concat (literals None <$> lines body) = Byte.to_N <$> B.
Proof.
  intros Hr Hw. destruct (run_ok prog i s o w B Hr Hw) as (_ & _ & ->).
  exists (nl +:+ cells (len B) 0 B +:+ nl).
  cbn [mbind option_bind]. split; [apply initializer_text_output|]. split.
  - rewrite lines_nl. apply Forall_cons. split; [simpl; lia|].
    destruct (rows_bound (len B) B 0) as (r & rs & E & Hr0 & Hrs).
    assert (Forall (λ x : list N, length x ≤ 12)
              (literals None <$> lines (cells (len B) 0 B +:+ nl))) as H.
    { rewrite E. apply Forall_cons. split; [|done].
      change (0 `mod` 12)%Z with 0%Z in Hr0. lia. }
    by apply Forall_fmap in H.
  - rewrite literals_rows, (literals_skip nl) by done.
    rewrite literals_cells. simpl. by rewrite (right_id [] (++)).
Qed.

Lemma rows_of_at_most_12_witness :
  read_bytes world_0_13 "blob" = Some bytes_0_13
  ∧ can_write world_0_13 "foo.cpp" = true
  ∧ ∃ body,
      file_text (final ["embed_bin.py"; "blob"; "foo"; "foo.cpp"] world_0_13)
        "foo.cpp" ≫= initializer_text "foo" = Some body
      ∧ Forall (λ l, length (literals None l) ≤ 12) (lines body)
      ∧ concat (literals None <$> lines body) = Byte.to_N <$> bytes_0_13.
Proof.
  split; [reflexivity|]. split; [reflexivity|].
  apply (rows_of_at_most_12 "embed_bin.py" "blob" "foo" "foo.cpp" world_0_13
           bytes_0_13); reflexivity.
Defined.

(** ** Counting lines *)

Lemma count_char_app c s t :
  count_char c (s +:+ t) = count_char c s + count_char c t.
Proof.
  induction s as [|a s IH]; [done|]. rewrite sapp_cons. cbn [count_char].
  rewrite IH. lia.
Qed.

Lemma count_char_lacks c s : lacks c s = true → count_char c s = 0.
Proof.
  induction s as [|a s IH]; [done|]. cbn [lacks count_char].
  intros [Ha Hs]%andb_true_iff. apply negb_true_iff in Ha.
  by rewrite Ha, (IH Hs).
Qed.

Lemma count_char_cell n i b :
  count_char "010" (cell n i b) = if (i `mod` 12 =? 11)%Z then 1 else 0.
Proof.
  destruct (i `mod` 12 =? 11)%Z eqn:Hi.
  - destruct (cell_ends_row n i b Hi) as (l & -> & Hl & _).
    by rewrite count_char_app, (count_char_lacks _ _ Hl).
  - apply count_char_lacks. by apply cell_inside_row.
Qed.

Lemma lacks_str_len {A} c (l : list A) :
  digit_of c = None → lacks c (str (len l)) = true.
Proof. intros H. unfold len. rewrite <- nat_N_Z. by apply lacks_str. Qed.

(** The loop ends a line at every index that is 11 modulo 12. *)
Lemma count_char_cells n data : ∀ i,
  Z.of_nat (count_char "010" (cells n i data))
  = ((i `mod` 12 + len data) `div` 12)%Z.
Proof.
  induction data as [|b data IH]; intros i; cbn [cells].
  - pose proof (Z.mod_pos_bound i 12). unfold len. simpl.
    rewrite Z.add_0_r, Z.div_small by lia. reflexivity.
  - rewrite count_char_app, Nat2Z.inj_add, IH, count_char_cell, len_cons.
    pose proof (Z.mod_pos_bound i 12). pose proof (len_nonneg data).
    destruct (i `mod` 12 =? 11)%Z eqn:Hi.
    + apply Z.eqb_eq in Hi.
      assert ((i + 1) `mod` 12 = 0)%Z as ->.
      { rewrite Z.add_mod, Hi by done. reflexivity. }
      rewrite Hi, Z.add_0_l.
      replace (11 + (1 + len data))%Z with (1 * 12 + len data)%Z by lia.
      rewrite Z.div_add_l by done. change (Z.of_nat 1) with 1%Z. lia.
    + apply Z.eqb_neq in Hi.
      assert ((i + 1) `mod` 12 = i `mod` 12 + 1)%Z as ->.
      { rewrite Z.add_mod by done. rewrite (Z.mod_small 1) by lia.
        apply Z.mod_small. lia. }
      change (Z.of_nat 0) with 0%Z. rewrite Z.add_0_l. f_equal. lia.
Qed.

(** X10. The number of newline characters of the output is 5 plus one for
    every complete row of 12 bytes, plus twice the number of newlines in the
    symbol name: for an identifier, the output has [5 + len(B) // 12]
    lines.  Each complete row is ended by a newline of its own, so an input
    whose length is a multiple of 12 leaves an empty line before the closing
    brace. *)
Theorem line_count prog i s o w (B : list byte) :
  read_bytes w i = Some B →
  can_write w o = true →
  ∃ text,
    file_text (final [prog; i; s; o] w) o = Some text
    ∧ Z.of_nat (count_char "010" text)
      = (5 + 2 * Z.of_nat (count_char "010" s) + len B `div` 12)%Z.
Proof.
  intros Hr Hw. destruct (run_ok prog i s o w B Hr Hw) as (_ & _ & ->).
  eexists. split; [reflexivity|].
  unfold output_text, array_head, size_line.
  rewrite !count_char_app, !Nat2Z.inj_add, count_char_cells.
  rewrite (count_char_lacks "010" (str _)) by (by apply lacks_str_len).
  change (0 `mod` 12)%Z with 0%Z.
  change (count_char "010" "#include <cstddef>") with 0.
  change (count_char "010" "extern const unsigned char ") with 0.
  change (count_char "010" "[] = {") with 0.
  change (count_char "010" "};") with 0.
  change (count_char "010" "extern const std::size_t ") with 0.
  change (count_char "010" "_len") with 0.
  change (count_char "010" " = ") with 0.
  change (count_char "010" ";") with 0.
  change (count_char "010" nl) with 1.
  rewrite (Z.add_0_l (len B)). lia.
Qed.

Lemma line_count_witness :
  read_bytes world_0_13 "blob" = Some bytes_0_13
  ∧ can_write world_0_13 "foo.cpp" = true
  ∧ ∃ text,
      file_text (final ["embed_bin.py"; "blob"; "foo"; "foo.cpp"] world_0_13)
        "foo.cpp" = Some text
      ∧ Z.of_nat (count_char "010" text)
        = (5 + 2 * Z.of_nat (count_char "010" "foo") + len bytes_0_13 `div` 12)%Z.
Proof.
  split; [reflexivity|]. split; [reflexivity|].
  apply (line_count "embed_bin.py" "blob" "foo" "foo.cpp" world_0_13
           bytes_0_13); reflexivity.
Defined.

(** ** Reading without knowing the name *)

(** X11. When the symbol name holds no opening brace, as no identifier does,
    a reader that knows nothing of the name recovers the input: the decimal
    literals between the first opening brace of the output and the next
    closing one are exactly the bytes of the input. *)
Theorem parse_braces_roundtrip prog i s o w (B : list byte) :
  read_bytes w i = Some B →
  can_write w o = true →
  lacks "{" s = true →
  file_text (final [prog; i; s; o] w) o ≫= parse_braces = Some B.
Proof.
  intros Hr Hw Hs. destruct (run_ok prog i s o w B Hr Hw) as (_ & _ & ->).
  cbn [mbind option_bind]. unfold parse_braces.
  replace (output_text s B)
    with (("#include <cstddef>" +:+ nl +:+ "extern const unsigned char "
           +:+ s +:+ "[] = ") +:+
          String "{"
            ((nl +:+ cells (len B) 0 B +:+ nl) +:+
             String "}" ((";" +:+ nl +:+ "extern const std::size_t "
                          +:+ (s +:+ "_len") +:+ " = ")
                         +:+ str (len B) +:+ String ";" nl)))
    by (rewrite output_text_split; unfold array_head; by rewrite !sapp_assoc).
  rewrite split_at_app by (by rewrite !lacks_app, Hs).
  cbn [mbind option_bind].
  rewrite split_at_app by (rewrite !lacks_app, lacks_cells; done).
  cbn [mbind option_bind].
  rewrite (literals_skip nl) by done.
  rewrite literals_cells. cbn [literals option_list].
  rewrite (right_id [] (++)). apply mapM_of_to_N.
Qed.

Lemma parse_braces_roundtrip_witness :
  read_bytes world_0_13 "blob" = Some bytes_0_13
  ∧ can_write world_0_13 "foo.cpp" = true
  ∧ lacks "{" "foo" = true
  ∧ file_text (final ["embed_bin.py"; "blob"; "foo"; "foo.cpp"] world_0_13)
      "foo.cpp" ≫= parse_braces = Some bytes_0_13.
Proof.
  split; [reflexivity|]. split; [reflexivity|]. split; [reflexivity|].
  apply (parse_braces_roundtrip "embed_bin.py" "blob" "foo" "foo.cpp"
           world_0_13 bytes_0_13); reflexivity.
Defined.

(** ** The characters of the initializer *)

Lemma only_app P s t : only P (s +:+ t) = only P s && only P t.
Proof.
  induction s as [|a s IH]; [done|]. rewrite sapp_cons. cbn [only].
  by rewrite IH, andb_assoc.
Qed.

Lemma only_digits s : all_digits s = true → only init_char s = true.
Proof.
  induction s as [|a s IH]; [done|]. cbn [all_digits only]. unfold init_char at 1.
  destruct (digit_of a); [|done]. exact IH.
Qed.

Lemma only_cells n data : ∀ i, only init_char (cells n i data) = true.
Proof.
  induction data as [|b data IH]; intros i; cbn [cells]; [done|].
  rewrite only_app, IH, andb_true_r. unfold cell, byte_int.
  rewrite !only_app, (only_digits _ (all_digits_str _)).
  by destruct (i `mod` 12 =? 0)%Z, (i =? n - 1)%Z, (i `mod` 12 =? 11)%Z.
Qed.

(** X12. Between the braces of the initializer the script writes nothing but
    decimal digits, commas, spaces and newlines: no sign, no hexadecimal or
    character literal, no comment, whatever the bytes of the input are. *)
Theorem initializer_charset prog i s o w (B : list byte) :
  read_bytes w i = Some B →
  can_write w o = true →
  ∃ body,
    file_text (final [prog; i; s; o] w) o ≫= initializer_text s = Some body
    ∧ only init_char body = true.
Proof.
  intros Hr Hw. destruct (run_ok prog i s o w B Hr Hw) as (_ & _ & ->).
  exists (nl +:+ cells (len B) 0 B +:+ nl).
  cbn [mbind option_bind]. split; [apply initializer_text_output|].
  by rewrite !only_app, only_cells.
Qed.

Lemma initializer_charset_witness :
  read_bytes demo_world "in.bin" = Some [x00; x01; xff]
  ∧ can_write demo_world "out.cpp" = true
  ∧ ∃ body,
      file_text (final ["embed_bin.py"; "in.bin"; "img"; "out.cpp"] demo_world)
        "out.cpp" ≫= initializer_text "img" = Some body
      ∧ only init_char body = true.
Proof.
  split; [reflexivity|]. split; [reflexivity|].
  apply (initializer_charset "embed_bin.py" "in.bin" "img" "out.cpp"
           demo_world [x00; x01; xff]); reflexivity.
Defined.

(** ** The guard on the arguments *)

(** X13. The guard on the number of arguments protects the three accesses to
    [sys.argv]: whatever the arguments and the world, no run ends with an
    [IndexError]. *)
Theorem no_index_error argv w :
  (run argv w).1 ≠ Raise IndexError.
Proof.
  destruct (argv_cases argv) as [Hlt | (a0 & i & s & o & extra & ->)].
  - unfold run. by rewrite main_usage by (unfold len; lia).
  - by destruct (run_outcome a0 i s o extra w)
      as [(e & [-> | ->] & -> & _) | (data & _ & _ & -> & _)].
Qed.
